(** * The CSS selector builder of [src/05-objects-tasks.js]

    A shallow embedding of the object [cssSelectorBuilder]: its six part
    methods ([element], [id], [class], [attr], [pseudoClass],
    [pseudoElement]), [combine] and [stringify].

    The builder is written in the prototype style of JavaScript: every method
    reads [this.selector] and [this.usedSelectors] through the prototype
    chain of its receiver, mutates the receiver in place or allocates a new
    object whose prototype is the receiver.  The embedding therefore keeps an
    explicit heap of objects, and every method is a function from a heap to
    a heap and a completion (a returned value or a thrown exception). *)

From stdpp Require Import base list strings.

(** * The model *)

(** ** Objects and the heap *)

(** References are positions in the heap; a new object is always allocated at
    the end, so an object is younger than its prototype. *)
Abbreviation ref := nat.

(** The object literal assigned to [instance.usedSelectors]. *)
Module UsedSelectors.
Record t := mk {
  element : bool;
  id : bool;
  className : bool;
  attribute : bool;
  pseudoClass : bool;
  pseudoElement : bool
}.

(** [u.element = true], and so on for each property. *)
Definition set_element (u : t) : t :=
  mk true (id u) (className u) (attribute u) (pseudoClass u) (pseudoElement u).
Definition set_id (u : t) : t :=
  mk (element u) true (className u) (attribute u) (pseudoClass u) (pseudoElement u).
Definition set_className (u : t) : t :=
  mk (element u) (id u) true (attribute u) (pseudoClass u) (pseudoElement u).
Definition set_attribute (u : t) : t :=
  mk (element u) (id u) (className u) true (pseudoClass u) (pseudoElement u).
Definition set_pseudoClass (u : t) : t :=
  mk (element u) (id u) (className u) (attribute u) true (pseudoElement u).
Definition set_pseudoElement (u : t) : t :=
  mk (element u) (id u) (className u) (attribute u) (pseudoClass u) true.
End UsedSelectors.

(** An object is its prototype link and its own properties.  The only own
    properties the builder ever creates are [selector] and [usedSelectors];
    the methods themselves live on [cssSelectorBuilder] and are reached by
    every object through its prototype chain.

    Each [usedSelectors] literal is created together with one instance,
    stored in that instance's own property and never stored anywhere else,
    so it is kept inside its owner; an object that inherits the property
    reads and mutates the record of the owner (see [getUsedSelectors] and
    [markUsed]). *)
Record object := Obj {
  proto : option ref;
  selector : option string;
  usedSelectors : option UsedSelectors.t
}.

Abbreviation heap := (list object).

(** Property read: the first object on the prototype chain of [r] that has
    the property as an own property, and its value; [None] is [undefined].
    The chain is walked at most once through every object of the heap. *)
Fixpoint getProp {A : Type} (field : object -> option A)
    (fuel : nat) (h : heap) (r : ref) : option (ref * A) :=
  match fuel with
  | 0 => None
  | S fuel' =>
      match h !! r with
      | None => None
      | Some o =>
          match field o with
          | Some v => Some (r, v)
          | None =>
              match proto o with
              | Some p => getProp field fuel' h p
              | None => None
              end
          end
      end
  end.

(** [this.selector] *)
Definition getSelector (h : heap) (this : ref) : option string :=
  snd <$> getProp selector (length h) h this.

(** [this.usedSelectors], with the object that owns it. *)
Definition getUsedSelectors (h : heap) (this : ref)
    : option (ref * UsedSelectors.t) :=
  getProp usedSelectors (length h) h this.

(** [this.selector = s]: an assignment creates or overwrites the own
    property of the receiver. *)
Definition setSelector (this : ref) (s : string) (h : heap) : heap :=
  alter (fun o => Obj (proto o) (Some s) (usedSelectors o)) this h.

(** [this.usedSelectors.k = true]: the assignment goes to the object read
    from [this.usedSelectors]; when that is [undefined] the assignment
    throws a TypeError ([None]). *)
Definition markUsed (set : UsedSelectors.t -> UsedSelectors.t)
    (this : ref) (h : heap) : option heap :=
  match getUsedSelectors h this with
  | Some (owner, u) =>
      Some (alter (fun o => Obj (proto o) (selector o) (Some (set u))) owner h)
  | None => None
  end.

(** [this.usedSelectors && p(this.usedSelectors)] as a condition. *)
Definition usedCheck (p : UsedSelectors.t -> bool) (h : heap) (this : ref)
    : bool :=
  match getUsedSelectors h this with
  | Some (_, u) => p u
  | None => false
  end.

(** Truthiness of a string or [undefined]: only a non-empty string is
    truthy. *)
Definition truthy (v : option string) : bool :=
  match v with
  | Some (String _ _) => true
  | Some EmptyString => false
  | None => false
  end.

(** Conversion to a string, as done by [+=] and by a template literal. *)
Definition toString (v : option string) : string :=
  match v with
  | Some s => s
  | None => "undefined"
  end.

(** ** Completions *)

Inductive exn :=
  | Error (message : string)
  | TypeError.

Inductive completion (A : Type) :=
  | Return (v : A)
  | Throw (e : exn).
Arguments Return {A} v.
Arguments Throw {A} e.

Definition duplicateMessage : string :=
  "Element, id and pseudo-element should not occur more then one time inside the selector".

Definition orderMessage : string :=
  "Selector parts should be arranged in the following order:"
  +:+ " element, id, class, attribute, pseudo-class, pseudo-element".

(** [const instance = {}; Object.setPrototypeOf(instance, this);
     instance.selector = s; instance.usedSelectors = u; return instance;] *)
Definition newInstance (this : ref) (s : string) (u : UsedSelectors.t)
    (h : heap) : heap * completion ref :=
  (h ++ [Obj (Some this) (Some s) (Some u)], Return (length h)).

(** ** The builder *)

Module cssSelectorBuilder.
Import UsedSelectors.

Definition element (this : ref) (value : string) (h : heap)
    : heap * completion ref :=
  if usedCheck (fun u => element u) h this then
    (h, Throw (Error duplicateMessage))
  else if usedCheck (fun u => id u || className u || attribute u
                              || pseudoClass u || pseudoElement u) h this then
    (h, Throw (Error orderMessage))
  else if truthy (getSelector h this) then
    let h1 := setSelector this (toString (getSelector h this) +:+ value) h in
    match markUsed set_element this h1 with
    | Some h2 => (h2, Return this)
    | None => (h1, Throw TypeError)
    end
  else
    newInstance this value (mk true false false false false false) h.

Definition id (this : ref) (value : string) (h : heap)
    : heap * completion ref :=
  if usedCheck (fun u => id u) h this then
    (h, Throw (Error duplicateMessage))
  else if usedCheck (fun u => className u || attribute u
                              || pseudoClass u || pseudoElement u) h this then
    (h, Throw (Error orderMessage))
  else if truthy (getSelector h this) then
    let h1 :=
      setSelector this (toString (getSelector h this) +:+ "#" +:+ value) h in
    match markUsed set_id this h1 with
    | Some h2 => (h2, Return this)
    | None => (h1, Throw TypeError)
    end
  else
    newInstance this ("#" +:+ value) (mk false true false false false false) h.

Definition class (this : ref) (value : string) (h : heap)
    : heap * completion ref :=
  if usedCheck (fun u => attribute u || pseudoClass u || pseudoElement u)
       h this then
    (h, Throw (Error orderMessage))
  else if truthy (getSelector h this) then
    let h1 :=
      setSelector this (toString (getSelector h this) +:+ "." +:+ value) h in
    match markUsed set_className this h1 with
    | Some h2 => (h2, Return this)
    | None => (h1, Throw TypeError)
    end
  else
    newInstance this ("." +:+ value) (mk false false true false false false) h.

Definition attr (this : ref) (value : string) (h : heap)
    : heap * completion ref :=
  if usedCheck (fun u => pseudoClass u || pseudoElement u) h this then
    (h, Throw (Error orderMessage))
  else if truthy (getSelector h this) then
    let h1 :=
      setSelector this
        (toString (getSelector h this) +:+ "[" +:+ value +:+ "]") h in
    match markUsed set_attribute this h1 with
    | Some h2 => (h2, Return this)
    | None => (h1, Throw TypeError)
    end
  else
    newInstance this ("[" +:+ value +:+ "]")
      (mk false false false true false false) h.

Definition pseudoClass (this : ref) (value : string) (h : heap)
    : heap * completion ref :=
  if usedCheck (fun u => UsedSelectors.pseudoElement u) h this then
    (h, Throw (Error orderMessage))
  else if truthy (getSelector h this) then
    let h1 :=
      setSelector this (toString (getSelector h this) +:+ ":" +:+ value) h in
    match markUsed set_pseudoClass this h1 with
    | Some h2 => (h2, Return this)
    | None => (h1, Throw TypeError)
    end
  else
    newInstance this (":" +:+ value) (mk false false false false true false) h.

Definition pseudoElement (this : ref) (value : string) (h : heap)
    : heap * completion ref :=
  if usedCheck (fun u => UsedSelectors.pseudoElement u) h this then
    (h, Throw (Error duplicateMessage))
  else if truthy (getSelector h this) then
    let h1 :=
      setSelector this (toString (getSelector h this) +:+ "::" +:+ value) h in
    match markUsed set_pseudoElement this h1 with
    | Some h2 => (h2, Return this)
    | None => (h1, Throw TypeError)
    end
  else
    newInstance this ("::" +:+ value) (mk false false false false false true) h.

(** [stringify() { return this.selector; }]: a read, which returns
    [undefined] ([None]) when no object of the chain has a selector. *)
Definition stringify (this : ref) (h : heap)
    : heap * completion (option string) :=
  (h, Return (getSelector h this)).

(** [combine]: the new instance gets an own [selector] only, computed at
    once from what the two operands stringify to. *)
Definition combine (this : ref) (selector1 : ref) (combinator : string)
    (selector2 : ref) (h : heap) : heap * completion ref :=
  let instance := length h in
  let h1 := h ++ [Obj (Some this) None None] in
  match stringify selector1 h1 with
  | (h2, Throw e) => (h2, Throw e)
  | (h2, Return v1) =>
      match stringify selector2 h2 with
      | (h3, Throw e) => (h3, Throw e)
      | (h3, Return v2) =>
          (setSelector instance
             (toString v1 +:+ " " +:+ combinator +:+ " " +:+ toString v2) h3,
           Return instance)
      end
  end.

(** The heap in which the module has just been loaded: the object literal
    [cssSelectorBuilder] itself, at address [builder].  It has neither a
    [selector] nor a [usedSelectors] property, and nor has its prototype
    [Object.prototype], which is therefore left out. *)
Definition builder : ref := 0.
Definition initialHeap : heap := [Obj None None None].
End cssSelectorBuilder.

(** * The vocabulary of the statements *)

(** ** Chains of part operations *)

(** The six kinds of selector part, with the order the builder enforces. *)
Inductive kind :=
  | Element | Id | Class | Attribute | PseudoClass | PseudoElement.

#[global] Instance kind_eq_dec : EqDecision kind.
Proof. solve_decision. Defined.

Definition order (k : kind) : nat :=
  match k with
  | Element => 0 | Id => 1 | Class => 2
  | Attribute => 3 | PseudoClass => 4 | PseudoElement => 5
  end.

(** The method that applies a part of kind [k]. *)
Definition partOp (k : kind) : ref -> string -> heap -> heap * completion ref :=
  match k with
  | Element => cssSelectorBuilder.element
  | Id => cssSelectorBuilder.id
  | Class => cssSelectorBuilder.class
  | Attribute => cssSelectorBuilder.attr
  | PseudoClass => cssSelectorBuilder.pseudoClass
  | PseudoElement => cssSelectorBuilder.pseudoElement
  end.

(** A chain [this.op1(v1).op2(v2)...]: each call is made on the object the
    previous one returned, and the first exception ends the chain. *)
Fixpoint chain (ops : list (kind * string)) (this : ref) (h : heap)
    : heap * completion ref :=
  match ops with
  | [] => (h, Return this)
  | (k, v) :: ops' =>
      match partOp k this v h with
      | (h', Return r) => chain ops' r h'
      | (h', Throw e) => (h', Throw e)
      end
  end.

(** What [r.stringify()] evaluates to in heap [h]. *)
Definition render (r : ref) (h : heap) : completion (option string) :=
  snd (cssSelectorBuilder.stringify r h).

(** ** The words of the specification *)

(** The formatted fragment of a part, as the specification lists them. *)
Definition fragment (k : kind) (value : string) : string :=
  match k with
  | Element => value
  | Id => "#" +:+ value
  | Class => "." +:+ value
  | Attribute => "[" +:+ value +:+ "]"
  | PseudoClass => ":" +:+ value
  | PseudoElement => "::" +:+ value
  end.

(** The concatenation of the fragments of a sequence of parts. *)
Fixpoint fragments (ops : list (kind * string)) : string :=
  match ops with
  | [] => ""
  | (k, v) :: ops' => fragment k v +:+ fragments ops'
  end.

Definition kinds (ops : list (kind * string)) : list kind := fst <$> ops.

(** Kinds in non-decreasing order. *)
Fixpoint nondecreasing (ks : list kind) : bool :=
  match ks with
  | [] => true
  | k :: ks' =>
      match ks' with
      | [] => true
      | k' :: _ => (order k <=? order k') && nondecreasing ks'
      end
  end.

Definition occurrences (k : kind) (ks : list kind) : nat :=
  length (filter (fun k' => k' = k) ks).

Definition atMostOnce (k : kind) (ks : list kind) : bool :=
  occurrences k ks <=? 1.

(** The flag of [usedSelectors] that records kind [k]. *)
Definition flagOf (k : kind) (u : UsedSelectors.t) : bool :=
  match k with
  | Element => UsedSelectors.element u
  | Id => UsedSelectors.id u
  | Class => UsedSelectors.className u
  | Attribute => UsedSelectors.attribute u
  | PseudoClass => UsedSelectors.pseudoClass u
  | PseudoElement => UsedSelectors.pseudoElement u
  end.

(** A builder without state: neither [selector] nor [usedSelectors] is
    visible from it.  [cssSelectorBuilder] itself is one. *)
Definition template (h : heap) (t : ref) : Prop :=
  getSelector h t = None /\ getUsedSelectors h t = None.

(** ** The six methods, uniformly *)

(** The cardinality guard of the method for kind [k]: [class], [attr] and
    [pseudoClass] have none. *)
Definition dupGuard (k : kind) (u : UsedSelectors.t) : bool :=
  match k with
  | Element => UsedSelectors.element u
  | Id => UsedSelectors.id u
  | PseudoElement => UsedSelectors.pseudoElement u
  | Class | Attribute | PseudoClass => false
  end.

(** The ordering guard of the method for kind [k]. *)
Definition orderGuard (k : kind) (u : UsedSelectors.t) : bool :=
  let (_, i, c, a, pc, pe) := u in
  match k with
  | Element => i || c || a || pc || pe
  | Id => c || a || pc || pe
  | Class => a || pc || pe
  | Attribute => pc || pe
  | PseudoClass => pe
  | PseudoElement => false
  end.

Definition setFlag (k : kind) : UsedSelectors.t -> UsedSelectors.t :=
  match k with
  | Element => UsedSelectors.set_element
  | Id => UsedSelectors.set_id
  | Class => UsedSelectors.set_className
  | Attribute => UsedSelectors.set_attribute
  | PseudoClass => UsedSelectors.set_pseudoClass
  | PseudoElement => UsedSelectors.set_pseudoElement
  end.

(** The [usedSelectors] literal of a new instance started with kind [k]. *)
Definition only (k : kind) : UsedSelectors.t :=
  setFlag k (UsedSelectors.mk false false false false false false).

(** ** The state of a chain *)

(** [r] has chain state of its own: an own [selector] with text [s] and an
    own [usedSelectors] with flags [u]. *)
Definition hasState (h : heap) (r : ref) (s : string) (u : UsedSelectors.t)
    : Prop :=
  exists p, h !! r = Some (Obj p (Some s) (Some u)).

(** The heap after the two assignments of the in-place branch, on an object
    that owns both properties: its text becomes [s'] and its flags [u']. *)
Definition extend (r : ref) (s' : string) (u' : UsedSelectors.t) (h : heap)
    : heap :=
  alter (fun o => Obj (proto o) (selector o) (Some u')) r (setSelector r s' h).

(** The flags of a chain record the kinds applied to it; only the flag of
    [Element] can be lost, when the chain restarts after [element('')]. *)
Definition tracks (ops : list (kind * string)) (u : UsedSelectors.t) : Prop :=
  (forall k,
    (flagOf k u = true -> k ∈ kinds ops) /\
    (k ∈ kinds ops -> k <> Element -> flagOf k u = true)) /\
  (Element ∈ kinds ops ->
   flagOf Element u = true \/ exists k, k ∈ kinds ops /\ k <> Element).

(** [r] is what the parts [ops] have built. *)
Definition built (ops : list (kind * string)) (h : heap) (r : ref) : Prop :=
  exists u, hasState h r (fragments ops) u /\ tracks ops u.

(** The order the code accepts: kinds never decrease, and [Element], [Id]
    and [PseudoElement] occur at most once. *)
Definition accepted (ks : list kind) : bool :=
  nondecreasing ks && atMostOnce Element ks && atMostOnce Id ks
  && atMostOnce PseudoElement ks.

(** ** Well-formed heaps and frames *)

(** Prototypes are older objects: [Object.setPrototypeOf(instance, this)] is
    only ever applied to an instance that has just been created. *)
Fixpoint wfFrom (i : nat) (h : heap) : bool :=
  match h with
  | [] => true
  | o :: h' =>
      match proto o with
      | Some p => p <? i
      | None => true
      end && wfFrom (S i) h'
  end.

Definition wf (h : heap) : bool := wfFrom 0 h.

(** Two heaps show the same prototype links and the same own [field] on the
    objects of the first. *)
Definition same {A : Type} (field : object -> option A) (h h' : heap) : Prop :=
  forall i, i < length h ->
    (fun o => (proto o, field o)) <$> h' !! i
    = (fun o => (proto o, field o)) <$> h !! i.

(** The old objects are untouched. *)
Definition agree (h h' : heap) : Prop :=
  forall i, i < length h -> h' !! i = h !! i.

(** * Lemmas *)

(** ** The six methods, uniformly *)

Lemma partOp_unfold (k : kind) (this : ref) (v : string) (h : heap) :
  partOp k this v h =
  if usedCheck (dupGuard k) h this then (h, Throw (Error duplicateMessage))
  else if usedCheck (orderGuard k) h this then (h, Throw (Error orderMessage))
  else if truthy (getSelector h this) then
    let h1 :=
      setSelector this (toString (getSelector h this) +:+ fragment k v) h in
    match markUsed (setFlag k) this h1 with
    | Some h2 => (h2, Return this)
    | None => (h1, Throw TypeError)
    end
  else newInstance this (fragment k v) (only k) h.
Proof.
  destruct k; cbn [partOp dupGuard];
    unfold cssSelectorBuilder.element, cssSelectorBuilder.id,
      cssSelectorBuilder.class, cssSelectorBuilder.attr,
      cssSelectorBuilder.pseudoClass, cssSelectorBuilder.pseudoElement,
      usedCheck;
    destruct (getUsedSelectors h this) as [[owner [e i c a pc pe]]|];
    reflexivity.
Qed.

Lemma flagOf_setFlag (k k' : kind) (u : UsedSelectors.t) :
  flagOf k' (setFlag k u) = if decide (k' = k) then true else flagOf k' u.
Proof. destruct k, k', u; reflexivity. Qed.

Lemma flagOf_only (k k' : kind) :
  flagOf k' (only k) = if decide (k' = k) then true else false.
Proof. destruct k, k'; reflexivity. Qed.

Lemma dupGuard_true (k : kind) (u : UsedSelectors.t) :
  dupGuard k u = true ->
  flagOf k u = true /\ (k = Element \/ k = Id \/ k = PseudoElement).
Proof. destruct k; cbn; intros E; try discriminate; auto. Qed.

Lemma dupGuard_flag (k : kind) (u : UsedSelectors.t) :
  k = Element \/ k = Id \/ k = PseudoElement -> dupGuard k u = flagOf k u.
Proof. intros [-> | [-> | ->]]; reflexivity. Qed.

Lemma orderGuard_true (k : kind) (u : UsedSelectors.t) :
  orderGuard k u = true <->
  exists k', order k < order k' /\ flagOf k' u = true.
Proof.
  split.
  - destruct u as [e i c a pc pe]; intros G.
    destruct pe eqn:?; [exists PseudoElement|];
      [destruct k; cbn in *; (split; [lia | done]) || discriminate|].
    destruct pc eqn:?; [exists PseudoClass|];
      [destruct k; cbn in *; (split; [lia | done]) || discriminate|].
    destruct a eqn:?; [exists Attribute|];
      [destruct k; cbn in *; (split; [lia | done]) || discriminate|].
    destruct c eqn:?; [exists Class|];
      [destruct k; cbn in *; (split; [lia | done]) || discriminate|].
    destruct i eqn:?; [exists Id|];
      [destruct k; cbn in *; (split; [lia | done]) || discriminate|].
    destruct k; discriminate.
  - intros (k' & Hlt & Hf).
    destruct u as [e i c a pc pe], k, k'; cbn in *; try lia; subst;
      rewrite ?orb_true_r; reflexivity.
Qed.

(** ** Reading the heap *)

Lemma getProp_own {A : Type} (field : object -> option A)
    (h : heap) (r : ref) (o : object) (v : A) :
  h !! r = Some o -> field o = Some v ->
  getProp field (length h) h r = Some (r, v).
Proof.
  intros Hr Hf. pose proof (lookup_lt_Some _ _ _ Hr) as Hlt.
  destruct (length h) as [|n]; [lia|]. cbn. by rewrite Hr, Hf.
Qed.

Lemma hasState_getSelector h r s u :
  hasState h r s u -> getSelector h r = Some s.
Proof.
  intros [p Hr]. unfold getSelector.
  by rewrite (getProp_own selector h r _ s Hr eq_refl).
Qed.

Lemma hasState_getUsedSelectors h r s u :
  hasState h r s u -> getUsedSelectors h r = Some (r, u).
Proof. intros [p Hr]. exact (getProp_own usedSelectors h r _ u Hr eq_refl). Qed.

(** ** Strings *)

Lemma append_String (x : Ascii.ascii) (a b : string) :
  String x a +:+ b = String x (a +:+ b).
Proof. reflexivity. Qed.

Lemma append_assoc (a b c : string) : (a +:+ b) +:+ c = a +:+ (b +:+ c).
Proof.
  induction a as [|x a IH]; [done|]. by rewrite !append_String, IH.
Qed.

Lemma append_empty_r (a : string) : a +:+ "" = a.
Proof. induction a as [|x a IH]; [done|]. by rewrite append_String, IH. Qed.

Lemma append_empty (a b : string) : a +:+ b = "" -> a = "" /\ b = "".
Proof. destruct a; [done|]. rewrite append_String. discriminate. Qed.

Lemma fragments_app (ops1 ops2 : list (kind * string)) :
  fragments (ops1 ++ ops2) = fragments ops1 +:+ fragments ops2.
Proof.
  induction ops1 as [|[k v] ops1 IH]; [done|].
  change (fragment k v +:+ fragments (ops1 ++ ops2) =
          (fragment k v +:+ fragments ops1) +:+ fragments ops2).
  by rewrite IH, append_assoc.
Qed.

Lemma fragments_snoc (ops : list (kind * string)) (k : kind) (v : string) :
  fragments (ops ++ [(k, v)]) = fragments ops +:+ fragment k v.
Proof. rewrite fragments_app. cbn. by rewrite append_empty_r. Qed.

(** Only [element('')] has an empty fragment. *)
Lemma fragment_empty (k : kind) (v : string) :
  fragment k v = "" -> k = Element /\ v = "".
Proof. destruct k; cbn; try discriminate. done. Qed.

Lemma fragments_empty (ops : list (kind * string)) :
  fragments ops = "" -> forall k, k ∈ kinds ops -> k = Element.
Proof.
  induction ops as [|[k v] ops IH]; cbn; intros E k' Hin.
  - by apply elem_of_nil in Hin.
  - apply append_empty in E as [E1 E2].
    apply elem_of_cons in Hin as [-> | Hin]; [|by apply IH].
    by apply fragment_empty in E1 as [-> _].
Qed.

Lemma truthy_Some (s : string) : truthy (Some s) = false <-> s = "".
Proof. destruct s; cbn; split; congruence. Qed.

(** ** One part operation on an object with state of its own *)

Lemma hasState_extend h r s u s' u' :
  hasState h r s u -> hasState (extend r s' u' h) r s' u'.
Proof.
  intros [p Hr]. exists p. unfold extend, setSelector.
  by rewrite !list_lookup_alter_eq, Hr.
Qed.

Lemma extend_other h r s' u' r' :
  r' <> r -> extend r s' u' h !! r' = h !! r'.
Proof.
  intros Hne. unfold extend, setSelector.
  by rewrite !list_lookup_alter_ne by done.
Qed.

Lemma length_extend h r s' u' : length (extend r s' u' h) = length h.
Proof. unfold extend, setSelector. by rewrite !length_alter. Qed.

Lemma hasState_newInstance h this s' u' :
  hasState (h ++ [Obj (Some this) (Some s') (Some u')]) (length h) s' u'.
Proof. exists (Some this). by apply list_lookup_middle. Qed.

Lemma partOp_hasState (k : kind) (r : ref) (v : string) (h : heap) s u :
  hasState h r s u ->
  partOp k r v h =
  if dupGuard k u then (h, Throw (Error duplicateMessage))
  else if orderGuard k u then (h, Throw (Error orderMessage))
  else if truthy (Some s) then
    (extend r (s +:+ fragment k v) (setFlag k u) h, Return r)
  else newInstance r (fragment k v) (only k) h.
Proof.
  intros Hs. rewrite partOp_unfold. unfold usedCheck.
  rewrite (hasState_getUsedSelectors _ _ _ _ Hs),
    (hasState_getSelector _ _ _ _ Hs).
  destruct (dupGuard k u); [done|]. destruct (orderGuard k u); [done|].
  destruct (truthy (Some s)); [|done].
  cbn [toString]. unfold markUsed.
  assert (hasState (setSelector r (s +:+ fragment k v) h) r
            (s +:+ fragment k v) u) as Hs1.
  { destruct Hs as [p Hr]. exists p. unfold setSelector.
    by rewrite list_lookup_alter_eq, Hr. }
  by rewrite (hasState_getUsedSelectors _ _ _ _ Hs1).
Qed.

(** On a template both guards pass and the selector is falsy, so every part
    method allocates. *)
Lemma partOp_template (k : kind) (t : ref) (v : string) (h : heap) :
  template h t ->
  partOp k t v h = newInstance t (fragment k v) (only k) h.
Proof.
  intros [Hsel Hused]. rewrite partOp_unfold. unfold usedCheck.
  by rewrite Hused, Hsel.
Qed.

(** ** The invariant of a chain *)

Lemma kinds_snoc ops k v : kinds (ops ++ [(k, v)]) = kinds ops ++ [k].
Proof. unfold kinds. by rewrite fmap_app. Qed.

Lemma built_first (k : kind) (v : string) (t : ref) (h : heap) :
  built [(k, v)] (h ++ [Obj (Some t) (Some (fragment k v)) (Some (only k))])
    (length h).
Proof.
  exists (only k). split.
  - cbn [fragments]. rewrite append_empty_r. apply hasState_newInstance.
  - split.
    + intros k'. rewrite flagOf_only. cbn. split.
      * case_decide as Hk;
          [subst; intros _; apply list_elem_of_here | discriminate].
      * intros Hin _. apply list_elem_of_singleton in Hin. by case_decide.
    + cbn. intros Hin. apply list_elem_of_singleton in Hin as <-. by left.
Qed.

Lemma built_step (ops : list (kind * string)) (h h' : heap) (r r' : ref)
    (k : kind) (v : string) :
  built ops h r ->
  partOp k r v h = (h', Return r') ->
  built (ops ++ [(k, v)]) h' r'.
Proof.
  intros (u & Hs & Ht & Hel) Hop.
  rewrite (partOp_hasState _ _ _ _ _ _ Hs) in Hop.
  destruct (dupGuard k u); [discriminate|].
  destruct (orderGuard k u); [discriminate|].
  destruct (truthy (Some (fragments ops))) eqn:Htr.
  - injection Hop as <- <-. exists (setFlag k u). split; [|split].
    + rewrite fragments_snoc. by eapply hasState_extend.
    + intros k'. rewrite flagOf_setFlag, kinds_snoc, elem_of_app,
        list_elem_of_singleton.
      destruct (Ht k') as [Ht1 Ht2]. case_decide as Hk; intuition congruence.
    + rewrite flagOf_setFlag, kinds_snoc.
      setoid_rewrite elem_of_app. setoid_rewrite list_elem_of_singleton.
      case_decide as Hk; [by left|]. intros [Hin | Heq]; [|congruence].
      destruct (Hel Hin) as [Hf | (k' & Hin' & Hne)]; [by left|].
      right. exists k'. auto.
  - injection Hop as <- <-. apply truthy_Some in Htr.
    exists (only k). split; [|split].
    + rewrite fragments_snoc, Htr. cbn. apply hasState_newInstance.
    + intros k'. rewrite flagOf_only, kinds_snoc, elem_of_app,
        list_elem_of_singleton.
      pose proof (fragments_empty _ Htr k') as Hall.
      case_decide as Hk; intuition congruence.
    + rewrite flagOf_only, kinds_snoc.
      setoid_rewrite elem_of_app. setoid_rewrite list_elem_of_singleton.
      case_decide as Hk; [by left|]. intros _. right. exists k. auto.
Qed.

Lemma chain_app (ops1 ops2 : list (kind * string)) (r : ref) (h : heap) :
  chain (ops1 ++ ops2) r h =
  match chain ops1 r h with
  | (h', Return r') => chain ops2 r' h'
  | (h', Throw e) => (h', Throw e)
  end.
Proof.
  revert r h. induction ops1 as [|[k v] ops1 IH]; intros r h; cbn; [done|].
  destruct (partOp k r v h) as [h' [r'|e]]; [apply IH | done].
Qed.

Lemma chain_built_from (ops pre : list (kind * string)) (h h' : heap)
    (r r' : ref) :
  built pre h r ->
  chain ops r h = (h', Return r') ->
  built (pre ++ ops) h' r'.
Proof.
  revert pre h r. induction ops as [|[k v] ops IH]; intros pre h r Hb Hc.
  - cbn in Hc. injection Hc as <- <-. by rewrite app_nil_r.
  - cbn in Hc. destruct (partOp k r v h) as [h1 [r1|e]] eqn:Hop;
      [|discriminate].
    rewrite (cons_middle (k, v)), app_assoc.
    eapply IH; [|exact Hc]. by eapply built_step.
Qed.

(** Every chain that starts on a template and succeeds has built its
    parts. *)
Lemma chain_built (ops : list (kind * string)) (h h' : heap) (t r : ref) :
  template h t -> ops <> [] ->
  chain ops t h = (h', Return r) ->
  built ops h' r.
Proof.
  intros Ht Hne Hc. destruct ops as [|[k v] ops]; [done|].
  cbn in Hc. rewrite (partOp_template _ _ _ _ Ht) in Hc.
  unfold newInstance in Hc.
  change ((k, v) :: ops) with ([(k, v)] ++ ops).
  eapply chain_built_from; [|exact Hc]. apply built_first.
Qed.

(** ** Well-ordered sequences of kinds *)

Lemma nondecreasing_head (k : kind) (ks : list kind) :
  nondecreasing (k :: ks) = true ->
  nondecreasing ks = true /\ forall k', k' ∈ ks -> order k <= order k'.
Proof.
  revert k. induction ks as [|k1 ks IH]; intros k Hnd.
  - split; [done|]. intros k' Hin. by apply elem_of_nil in Hin.
  - cbn in Hnd. apply andb_true_iff in Hnd as [Hle Hnd].
    apply Nat.leb_le in Hle. split; [done|].
    intros k' Hin. apply elem_of_cons in Hin as [-> | Hin]; [done|].
    destruct (IH _ Hnd) as [_ Hall]. specialize (Hall _ Hin). lia.
Qed.

Lemma nondecreasing_middle (pre post : list kind) (k : kind) :
  nondecreasing (pre ++ k :: post) = true ->
  forall k', k' ∈ pre -> order k' <= order k.
Proof.
  induction pre as [|k0 pre IH]; intros Hnd k' Hin.
  - by apply elem_of_nil in Hin.
  - apply nondecreasing_head in Hnd as [Hnd Hall].
    apply elem_of_cons in Hin as [-> | Hin]; [|by apply IH].
    apply Hall. apply elem_of_app. right. apply list_elem_of_here.
Qed.

Lemma occurrences_zero (k : kind) (ks : list kind) :
  occurrences k ks = 0 -> k ∉ ks.
Proof.
  unfold occurrences. intros E Hin.
  apply length_zero_iff_nil in E.
  assert (k ∈ filter (fun k' => k' = k) ks) as Hf
    by (by apply list_elem_of_filter).
  rewrite E in Hf. by apply elem_of_nil in Hf.
Qed.

Lemma atMostOnce_middle (pre post : list kind) (k : kind) :
  atMostOnce k (pre ++ k :: post) = true -> k ∉ pre.
Proof.
  unfold atMostOnce, occurrences. intros Hle. apply Nat.leb_le in Hle.
  rewrite filter_app, filter_cons_True, length_app in Hle by done.
  cbn in Hle. apply occurrences_zero. unfold occurrences. lia.
Qed.

Lemma accepted_middle (pre post : list kind) (k : kind) :
  accepted (pre ++ k :: post) = true ->
  (forall k', k' ∈ pre -> order k' <= order k) /\
  (k = Element \/ k = Id \/ k = PseudoElement -> k ∉ pre).
Proof.
  unfold accepted. rewrite !andb_true_iff. intros [[[Hnd He] Hi] Hp].
  split; [by eapply nondecreasing_middle|].
  intros [-> | [-> | ->]]; by eapply atMostOnce_middle.
Qed.

Lemma partOp_accepted (pre post : list (kind * string)) (k : kind)
    (v : string) (h : heap) (r : ref) :
  built pre h r ->
  accepted (kinds (pre ++ (k, v) :: post)) = true ->
  exists h' r', partOp k r v h = (h', Return r').
Proof.
  intros (u & Hs & Ht & _) Hacc.
  unfold kinds in Hacc. rewrite fmap_app, fmap_cons in Hacc. cbn in Hacc.
  apply accepted_middle in Hacc as [Hle Hdup].
  rewrite (partOp_hasState _ _ _ _ _ _ Hs).
  destruct (dupGuard k u) eqn:Hd.
  { apply dupGuard_true in Hd as [Hf Hk].
    destruct (Hdup Hk). by apply (Ht k). }
  destruct (orderGuard k u) eqn:Ho.
  { apply orderGuard_true in Ho as (k' & Hlt & Hf).
    apply (Ht k') in Hf. apply Hle in Hf. lia. }
  unfold newInstance. destruct (truthy (Some (fragments pre))); eauto.
Qed.

Lemma chain_accepted_from (ops pre : list (kind * string)) (h : heap)
    (r : ref) :
  built pre h r ->
  accepted (kinds (pre ++ ops)) = true ->
  exists h' r', chain ops r h = (h', Return r').
Proof.
  revert pre h r. induction ops as [|[k v] ops IH]; intros pre h r Hb Hacc.
  - cbn. eauto.
  - destruct (partOp_accepted _ _ _ _ _ _ Hb Hacc) as (h1 & r1 & Hop).
    cbn. rewrite Hop. apply (IH (pre ++ [(k, v)])).
    + by eapply built_step.
    + by rewrite <- app_assoc.
Qed.

Lemma chain_accepted (ops : list (kind * string)) (h : heap) (t : ref) :
  template h t ->
  accepted (kinds ops) = true ->
  exists h' r, chain ops t h = (h', Return r).
Proof.
  intros Ht Hacc. destruct ops as [|[k v] ops]; [cbn; eauto|].
  cbn. rewrite (partOp_template _ _ _ _ Ht). unfold newInstance.
  apply (chain_accepted_from ops [(k, v)]); [apply built_first | done].
Qed.

(** ** Well-formed heaps and frames *)

Lemma wfFrom_lookup (h : heap) (n i : nat) (o : object) (p : ref) :
  wfFrom n h = true -> h !! i = Some o -> proto o = Some p -> p < n + i.
Proof.
  revert n i. induction h as [|o' h IH]; intros n i Hwf Hi Hp; [done|].
  cbn in Hwf. apply andb_true_iff in Hwf as [Ho Hwf].
  destruct i as [|i]; cbn in Hi.
  - injection Hi as ->. rewrite Hp in Ho. apply Nat.ltb_lt in Ho. lia.
  - specialize (IH _ _ Hwf Hi Hp). lia.
Qed.

Lemma wf_lookup (h : heap) (i : nat) (o : object) (p : ref) :
  wf h = true -> h !! i = Some o -> proto o = Some p -> p < i.
Proof. intros Hwf Hi Hp. exact (wfFrom_lookup h 0 i o p Hwf Hi Hp). Qed.

Lemma getProp_same {A : Type} (field : object -> option A) (h h' : heap) :
  wf h = true -> same field h h' ->
  forall n x, x < length h -> getProp field n h' x = getProp field n h x.
Proof.
  intros Hwf Hsame n. induction n as [|n IH]; intros x Hx; [done|].
  cbn. specialize (Hsame x Hx).
  destruct (lookup_lt_is_Some_2 h x Hx) as [o Ho]. rewrite Ho in Hsame |- *.
  destruct (h' !! x) as [o'|]; [|done]. cbn in Hsame.
  injection Hsame as Hp Hf. rewrite Hp, Hf.
  destruct (field o); [done|]. destruct (proto o) as [p|] eqn:Hpo; [|done].
  apply IH. pose proof (wf_lookup h x o p Hwf Ho Hpo). lia.
Qed.

(** In a well-formed heap the walk from [x] needs no more than [x + 1]
    steps. *)
Lemma getProp_fuel {A : Type} (field : object -> option A) (h : heap) :
  wf h = true ->
  forall n m x, x < n -> x < m -> getProp field n h x = getProp field m h x.
Proof.
  intros Hwf n. induction n as [|n IH]; intros m x Hn Hm; [lia|].
  destruct m as [|m]; [lia|]. cbn.
  destruct (h !! x) as [o|] eqn:Ho; [|done].
  destruct (field o); [done|]. destruct (proto o) as [p|] eqn:Hpo; [|done].
  pose proof (wf_lookup h x o p Hwf Ho Hpo). apply IH; lia.
Qed.

Lemma getProp_stable {A : Type} (field : object -> option A) (h h' : heap)
    (x : ref) :
  wf h = true -> same field h h' -> length h <= length h' ->
  x < length h ->
  getProp field (length h') h' x = getProp field (length h) h x.
Proof.
  intros Hwf Hsame Hlen Hx.
  rewrite (getProp_same field h h' Hwf Hsame _ x Hx).
  apply getProp_fuel; [done | lia | lia].
Qed.

Lemma agree_same {A : Type} (field : object -> option A) (h h' : heap) :
  agree h h' -> same field h h'.
Proof. intros Hag i Hi. by rewrite Hag. Qed.

Lemma agree_length (h h' : heap) : agree h h' -> length h <= length h'.
Proof.
  intros Hag. destruct (decide (length h = 0)) as [|Hne]; [lia|].
  assert (length h - 1 < length h) as Hlt by lia.
  destruct (lookup_lt_is_Some_2 h _ Hlt) as [o Ho].
  rewrite <- (Hag _ Hlt) in Ho. apply lookup_lt_Some in Ho. lia.
Qed.

Lemma template_agree (h h' : heap) (t : ref) :
  wf h = true -> t < length h -> agree h h' ->
  template h t -> template h' t.
Proof.
  intros Hwf Ht Hag [Hsel Hused].
  pose proof (agree_length _ _ Hag) as Hlen.
  unfold template, getSelector, getUsedSelectors in *.
  by rewrite !(getProp_stable _ h h' t Hwf (agree_same _ _ _ Hag) Hlen Ht).
Qed.

(** A part method changes no [selector] but that of its receiver. *)
Lemma partOp_selector_frame (k : kind) (this : ref) (v : string)
    (h h' : heap) (res : completion ref) (i : ref) (o : object) :
  partOp k this v h = (h', res) -> i <> this -> h !! i = Some o ->
  exists o', h' !! i = Some o' /\ selector o' = selector o.
Proof.
  intros Hop Hne Hi. rewrite partOp_unfold in Hop. unfold newInstance in Hop.
  assert (setSelector this
            (toString (getSelector h this) +:+ fragment k v) h !! i = Some o)
    as Hi1 by (unfold setSelector; by rewrite list_lookup_alter_ne).
  repeat case_match; simplify_eq; eauto.
  - match goal with H : markUsed _ _ _ = Some _ |- _ =>
      unfold markUsed in H; repeat case_match; simplify_eq end.
    rewrite list_lookup_alter. case_decide; subst; [|eauto].
    rewrite Hi1. cbn. eauto.
  - exists o. split; [|done]. by apply lookup_app_l_Some.
Qed.

(** One operation on an object with state of its own: nothing else
    changes, nothing is changed when it throws, and a returned object is the
    receiver or a new one. *)
Lemma partOp_hasState_frame (k : kind) (r : ref) (v : string) (h h' : heap)
    (res : completion ref) s u :
  hasState h r s u -> partOp k r v h = (h', res) ->
  (forall i, i <> r -> i < length h -> h' !! i = h !! i) /\
  (forall e, res = Throw e -> h' = h /\ exists msg, e = Error msg) /\
  (forall r', res = Return r' -> r <= r').
Proof.
  intros Hs Hop. pose proof Hs as [p Hr].
  pose proof (lookup_lt_Some _ _ _ Hr) as Hlt.
  rewrite (partOp_hasState _ _ _ _ _ _ Hs) in Hop. unfold newInstance in Hop.
  repeat case_match; simplify_eq; (split; [|split]); try done.
  - intros e [= <-]. eauto.
  - intros e [= <-]. eauto.
  - intros i Hne _. by apply extend_other.
  - intros r' [= <-]. lia.
  - intros i _ Hi. by apply lookup_app_l.
  - intros r' [= <-]. lia.
Qed.

(** A chain leaves every object that existed before it alone, once it has
    moved to an object of its own. *)
Lemma chain_frame_from (ops pre : list (kind * string)) (h0 h h' : heap)
    (r : ref) (res : completion ref) :
  built pre h r -> length h0 <= r -> agree h0 h ->
  chain ops r h = (h', res) ->
  agree h0 h' /\ forall r', res = Return r' -> length h0 <= r'.
Proof.
  revert pre h r. induction ops as [|[k v] ops IH]; intros pre h r Hb Hr Hag Hc.
  - cbn in Hc. injection Hc as <- <-. split; [done|]. by intros r' [= <-].
  - cbn in Hc. destruct (partOp k r v h) as [h1 res1] eqn:Hop.
    pose proof Hb as (u & Hs & _).
    destruct (partOp_hasState_frame _ _ _ _ _ _ _ _ Hs Hop)
      as (Hother & Hthrow & Hret).
    pose proof (agree_length _ _ Hag) as Hlen.
    assert (agree h0 h1) as Hag1.
    { intros i Hi. rewrite Hother by lia. by apply Hag. }
    destruct res1 as [r1|e].
    + eapply (IH (pre ++ [(k, v)])); [|..|exact Hc]; [|specialize (Hret r1 eq_refl); lia|done].
      by eapply built_step.
    + injection Hc as <- <-. split; [done|]. intros r' [=].
Qed.

Lemma chain_frame (ops : list (kind * string)) (h h' : heap) (t : ref)
    (res : completion ref) :
  template h t -> chain ops t h = (h', res) ->
  agree h h' /\ forall r, res = Return r -> ops <> [] -> length h <= r.
Proof.
  intros Ht Hc. destruct ops as [|[k v] ops].
  - cbn in Hc. injection Hc as <- <-. split; [done|]. by intros r _ ?.
  - cbn in Hc. rewrite (partOp_template _ _ _ _ Ht) in Hc.
    unfold newInstance in Hc.
    destruct (chain_frame_from ops [(k, v)] h _ h' _ res
                (built_first k v t h) (Nat.le_refl _)) as [Hag Hr];
      [|exact Hc|].
    + intros i Hi. by apply lookup_app_l.
    + split; [done|]. intros r E _. by apply Hr.
Qed.

Lemma built_render (ops : list (kind * string)) (h : heap) (r : ref) :
  built ops h r -> render r h = Return (Some (fragments ops)).
Proof.
  intros (u & Hs & _). unfold render, cssSelectorBuilder.stringify. cbn.
  by rewrite (hasState_getSelector _ _ _ _ Hs).
Qed.

(** ** Well-formedness is kept by every method *)

Lemma wfFrom_alter (f : object -> object) (n : nat) (i : ref) (h : heap) :
  (forall o, proto (f o) = proto o) ->
  wfFrom n (alter f i h) = wfFrom n h.
Proof.
  intros Hf. revert n i. induction h as [|o h IH]; intros n i; [done|].
  destruct i as [|i]; cbn.
  - by rewrite Hf.
  - f_equal. apply IH.
Qed.

Lemma wfFrom_snoc (n : nat) (h : heap) (o : object) :
  wfFrom n (h ++ [o]) =
  wfFrom n h && match proto o with
                | Some p => p <? n + length h
                | None => true
                end.
Proof.
  revert n. induction h as [|o' h IH]; intros n; cbn.
  - rewrite Nat.add_0_r. by rewrite andb_true_r.
  - rewrite IH. replace (n + S (length h)) with (S n + length h) by lia.
    by rewrite andb_assoc.
Qed.

Lemma wf_setSelector (this : ref) (s : string) (h : heap) :
  wf (setSelector this s h) = wf h.
Proof. unfold wf, setSelector. by apply wfFrom_alter. Qed.

Lemma wf_newInstance (this : ref) (os : option string)
    (ou : option UsedSelectors.t) (h : heap) :
  wf h = true -> this < length h -> wf (h ++ [Obj (Some this) os ou]) = true.
Proof.
  intros Hwf Hthis. unfold wf in *. rewrite wfFrom_snoc, Hwf. cbn.
  by apply Nat.ltb_lt.
Qed.

Lemma wf_partOp (k : kind) (this : ref) (v : string) (h h' : heap)
    (res : completion ref) :
  wf h = true -> this < length h ->
  partOp k this v h = (h', res) ->
  wf h' = true.
Proof.
  intros Hwf Hthis Hop. rewrite partOp_unfold in Hop.
  unfold newInstance in Hop.
  repeat case_match; simplify_eq; try done.
  - match goal with H : markUsed _ _ _ = Some _ |- _ =>
      unfold markUsed in H; repeat case_match; simplify_eq end.
    unfold wf. rewrite wfFrom_alter by done.
    fold (wf (setSelector this
                (toString (getSelector h this) +:+ fragment k v) h)).
    by rewrite wf_setSelector.
  - by rewrite wf_setSelector.
  - by apply wf_newInstance.
Qed.

Lemma wf_combine (this a b : ref) (token : string) (h h' : heap)
    (res : completion ref) :
  wf h = true -> this < length h ->
  cssSelectorBuilder.combine this a token b h = (h', res) ->
  wf h' = true.
Proof.
  intros Hwf Hthis Hc. unfold cssSelectorBuilder.combine in Hc. cbn in Hc.
  injection Hc as <- <-. rewrite wf_setSelector. by apply wf_newInstance.
Qed.

(** * The claims *)

Import cssSelectorBuilder.

(** ** C1: well-ordered chains render the concatenation of their fragments *)

(** C1, as stated, fails: the kinds [Id; Id] are in non-decreasing order and
    contain neither [Element] nor [PseudoElement] twice, yet
    [id('main').id('other')] throws, because [id] refuses a second id. *)
Lemma C1_second_id_in_order_throws :
  let ops := [(Id, "main"); (Id, "other")] in
  nondecreasing (kinds ops) = true /\
  atMostOnce Element (kinds ops) = true /\
  atMostOnce PseudoElement (kinds ops) = true /\
  snd (chain ops builder initialHeap) = Throw (Error duplicateMessage).
Proof. repeat split; reflexivity. Qed.

(** C1 (amended): for every non-empty sequence of part operations whose
    kinds are in non-decreasing order, with Element, Id and PseudoElement
    occurring at most once each, the chain started on a builder without
    state succeeds, and [stringify()] on its result returns the
    concatenation of the fragments of the parts, with no separators. *)
Theorem C1_ordered_chain_renders_fragments (h : heap) (t : ref)
    (ops : list (kind * string)) :
  template h t ->
  ops <> [] ->
  nondecreasing (kinds ops) = true ->
  atMostOnce Element (kinds ops) = true ->
  atMostOnce Id (kinds ops) = true ->
  atMostOnce PseudoElement (kinds ops) = true ->
  exists h' r,
    chain ops t h = (h', Return r) /\
    render r h' = Return (Some (fragments ops)).
Proof.
  intros Ht Hne Hnd He Hi Hp.
  destruct (chain_accepted ops h t Ht) as (h' & r & Hc).
  { unfold accepted. by rewrite Hnd, He, Hi, Hp. }
  exists h', r. split; [done|].
  apply built_render. by eapply chain_built.
Qed.

(** The example of the claim:
    [element('div').id('main').class('container').class('draggable')]. *)
Lemma C1_div_main_container_draggable :
  exists h' r,
    chain [(Element, "div"); (Id, "main"); (Class, "container");
           (Class, "draggable")] builder initialHeap = (h', Return r) /\
    render r h' = Return (Some "div#main.container.draggable").
Proof.
  apply (C1_ordered_chain_renders_fragments initialHeap builder
           [(Element, "div"); (Id, "main"); (Class, "container");
            (Class, "draggable")]).
  - split; reflexivity.
  - discriminate.
  - reflexivity.
  - reflexivity.
  - reflexivity.
  - reflexivity.
Defined.

(** ** C2: which kinds may repeat *)

(** C2, as stated, fails for Id: on the chain [id('main')], which contains
    an id and no higher kind, a second [id] throws. *)
Lemma C2_second_id_throws :
  exists h1 r,
    chain [(Id, "main")] builder initialHeap = (h1, Return r) /\
    id r "other" h1 = (h1, Throw (Error duplicateMessage)).
Proof. do 2 eexists. split; reflexivity. Qed.

(** C2 (amended): on every chain that already contains a part of kind [k],
    - if [k] is Class, Attribute or PseudoClass and no higher kind has been
      applied, applying [k] again succeeds on the same object and appends
      another fragment;
    - if [k] is Element, Id or PseudoElement, applying [k] again throws and
      changes nothing. *)
Theorem C2_class_attr_pseudoClass_repeat (h h1 : heap) (t r : ref)
    (ops : list (kind * string)) (k : kind) (v : string) :
  template h t ->
  chain ops t h = (h1, Return r) ->
  k ∈ kinds ops ->
  (k = Class \/ k = Attribute \/ k = PseudoClass ->
   (forall k', k' ∈ kinds ops -> order k' <= order k) ->
   exists h2,
     partOp k r v h1 = (h2, Return r) /\
     render r h2 = Return (Some (fragments ops +:+ fragment k v))) /\
  (k = Element \/ k = Id \/ k = PseudoElement ->
   exists msg, partOp k r v h1 = (h1, Throw (Error msg))).
Proof.
  intros Ht Hc Hin.
  assert (ops <> []) as Hne.
  { intros ->. by apply elem_of_nil in Hin. }
  pose proof (chain_built ops h h1 t r Ht Hne Hc) as Hb.
  pose proof Hb as (u & Hs & Htr & Hel).
  rewrite (partOp_hasState _ _ _ _ _ _ Hs). split.
  - intros Hk Hmax.
    assert (k <> Element) as HkE
      by (destruct Hk as [-> | [-> | ->]]; discriminate).
    assert (dupGuard k u = false) as -> by (by destruct Hk as [-> | [-> | ->]]).
    destruct (orderGuard k u) eqn:Ho.
    { apply orderGuard_true in Ho as (k' & Hlt & Hf).
      apply (Htr k') in Hf. apply Hmax in Hf. lia. }
    destruct (truthy (Some (fragments ops))) eqn:Htru.
    + eexists. split. { reflexivity. }
      assert (built (ops ++ [(k, v)])
                (extend r (fragments ops +:+ fragment k v) (setFlag k u) h1) r)
        as Hb'.
      { eapply built_step; [exact Hb|].
        rewrite (partOp_hasState _ _ _ _ _ _ Hs).
        assert (dupGuard k u = false) as ->
          by (by destruct Hk as [-> | [-> | ->]]).
        by rewrite Ho, Htru. }
      rewrite (built_render _ _ _ Hb'). by rewrite fragments_snoc.
    + apply truthy_Some in Htru.
      destruct HkE. by eapply fragments_empty.
  - intros Hk. rewrite (dupGuard_flag _ u Hk).
    destruct (flagOf k u) eqn:Hf; [eauto|].
    assert (k = Element) as ->.
    { destruct (decide (k = Element)) as [|HkE]; [done|].
      apply (Htr k) in Hin; [congruence | done]. }
    destruct (Hel Hin) as [Hf' | (k' & Hin' & Hne')]; [congruence|].
    assert (orderGuard Element u = true) as ->; [|eauto].
    apply orderGuard_true. exists k'. split.
    + destruct k'; cbn; (lia || done).
    + by apply (Htr k').
Qed.

(** A second class after [element('div').class('container')]. *)
Lemma C2_second_class_appends :
  exists h2,
    partOp Class 1 "draggable"
      (fst (chain [(Element, "div"); (Class, "container")] builder initialHeap))
    = (h2, Return 1) /\
    render 1 h2 = Return (Some "div.container.draggable").
Proof.
  refine (proj1 (C2_class_attr_pseudoClass_repeat initialHeap _ builder 1
             [(Element, "div"); (Class, "container")] Class "draggable"
             _ _ _) _ _).
  - split; reflexivity.
  - reflexivity.
  - vm_compute. apply list_elem_of_further, list_elem_of_here.
  - auto.
  - intros k' Hin. vm_compute in Hin.
    apply elem_of_cons in Hin as [-> | Hin]; [cbn; lia|].
    apply list_elem_of_singleton in Hin as ->. cbn; lia.
Defined.

(** ** C3: stringify on a builder that has no part *)

(** C3, as stated, fails: [cssSelectorBuilder.stringify()] throws nothing;
    it returns [undefined]. *)
Lemma C3_stringify_of_builder_returns_undefined :
  stringify builder initialHeap = (initialHeap, Return None).
Proof. reflexivity. Qed.

(** C3 (amended): [stringify()] on a builder to which no part operation has
    been applied (no selector is visible from it) raises no error: it
    returns [undefined] and leaves the heap as it is. *)
Theorem C3_stringify_without_parts (h : heap) (t : ref) :
  template h t ->
  stringify t h = (h, Return None).
Proof. intros [Hsel _]. unfold stringify. by rewrite Hsel. Qed.

Lemma C3_stringify_without_parts_witness :
  template initialHeap builder /\
  stringify builder initialHeap = (initialHeap, Return None).
Proof.
  split.
  - split; reflexivity.
  - apply (C3_stringify_without_parts initialHeap builder). split; reflexivity.
Defined.

(** ** C4: combine *)

Lemma getProp_valid {A : Type} (field : object -> option A) (n : nat)
    (h : heap) (r : ref) (x : ref * A) :
  getProp field n h r = Some x -> r < length h.
Proof.
  destruct n as [|n]; [done|]. cbn.
  destruct (h !! r) as [o|] eqn:Ho; [|done].
  intros _. by eapply lookup_lt_Some.
Qed.

(** A successful read stays the same when objects are added and the walk is
    given more steps. *)
Lemma getProp_app_Some {A : Type} (field : object -> option A) (n m : nat)
    (h l : heap) (r : ref) (x : ref * A) :
  getProp field n h r = Some x -> n <= m ->
  getProp field m (h ++ l) r = Some x.
Proof.
  revert m r. induction n as [|n IH]; intros m r Hg Hle; [done|].
  destruct m as [|m]; [lia|]. cbn in Hg |- *.
  destruct (h !! r) as [o|] eqn:Ho; [|done].
  rewrite (lookup_app_l_Some _ _ _ _ Ho).
  destruct (field o); [done|]. destruct (proto o); [|done].
  apply IH; [done | lia].
Qed.

Lemma getSelector_app (h l : heap) (r : ref) (s : string) :
  getSelector h r = Some s -> getSelector (h ++ l) r = Some s.
Proof.
  unfold getSelector. intros Hg.
  destruct (getProp selector (length h) h r) as [[owner s']|] eqn:Hp;
    [|done].
  rewrite (getProp_app_Some selector _ (length (h ++ l)) h l r _ Hp);
    [done|]. rewrite length_app. lia.
Qed.

Lemma getSelector_own (h : heap) (r : ref) (o : object) (s : string) :
  h !! r = Some o -> selector o = Some s -> getSelector h r = Some s.
Proof.
  intros Hr Hs. unfold getSelector.
  by rewrite (getProp_own selector h r o s Hr Hs).
Qed.

Lemma render_Some (h : heap) (r : ref) (s : string) :
  render r h = Return (Some s) <-> getSelector h r = Some s.
Proof. unfold render, stringify. cbn. split; congruence. Qed.

(** The heap and the text [combine] produces. *)
Lemma combine_unfold (h : heap) (this a b : ref) (token : string) :
  combine this a token b h =
  (setSelector (length h)
     (toString (getSelector (h ++ [Obj (Some this) None None]) a)
      +:+ " " +:+ token +:+ " "
      +:+ toString (getSelector (h ++ [Obj (Some this) None None]) b))
     (h ++ [Obj (Some this) None None]),
   Return (length h)).
Proof. reflexivity. Qed.

Lemma combine_lookup (h : heap) (this : ref) (s : string) :
  setSelector (length h) s (h ++ [Obj (Some this) None None]) !! length h
  = Some (Obj (Some this) (Some s) None).
Proof.
  unfold setSelector. rewrite list_lookup_alter_eq.
  by rewrite list_lookup_middle.
Qed.

(** C4: for every two selectors [a] and [b] that stringify to strings and
    every token, [combine] raises no error, looks at the token in no way but
    to insert it, and returns a new object that stringifies to
    [render(a) + ' ' + token + ' ' + render(b)]; the text is captured when
    [combine] is called: no part operation applied afterwards to another
    object, the operands included, changes it. *)
Theorem C4_combine_joins_renders (h : heap) (this a b : ref)
    (token sa sb : string) :
  render a h = Return (Some sa) ->
  render b h = Return (Some sb) ->
  exists h' c,
    combine this a token b h = (h', Return c) /\
    render c h' = Return (Some (sa +:+ " " +:+ token +:+ " " +:+ sb)) /\
    a <> c /\ b <> c /\
    forall x k v, x <> c ->
      render c (fst (partOp k x v h'))
      = Return (Some (sa +:+ " " +:+ token +:+ " " +:+ sb)).
Proof.
  intros Ha Hb. apply render_Some in Ha, Hb.
  rewrite combine_unfold.
  rewrite (getSelector_app h _ a sa Ha), (getSelector_app h _ b sb Hb).
  cbn [toString]. do 2 eexists. split; [reflexivity|].
  pose proof (combine_lookup h this (sa +:+ " " +:+ token +:+ " " +:+ sb))
    as Hc.
  assert (forall r s, getSelector h r = Some s -> r <> length h) as Hold.
  { intros r s Hg Heq. unfold getSelector in Hg.
    destruct (getProp selector (length h) h r) as [x|] eqn:Hp; [|done].
    apply getProp_valid in Hp. lia. }
  split; [|split; [|split]].
  - apply render_Some. by eapply getSelector_own.
  - by eapply Hold.
  - by eapply Hold.
  - intros x k v Hx.
    destruct (partOp k x v _) as [h'' res] eqn:Hop. cbn [fst].
    destruct (partOp_selector_frame _ _ _ _ _ _ _ _ Hop (not_eq_sym Hx) Hc)
      as (o' & Ho' & Hsel).
    apply render_Some. by eapply getSelector_own.
Qed.

(** The example of the claim:
    [combine(element('div').id('main'), '+', element('table').id('data'))]. *)
Lemma C4_div_main_plus_table_data :
  exists h' c,
    combine builder 1 "+" 2
      (fst (chain [(Element, "table"); (Id, "data")] builder
         (fst (chain [(Element, "div"); (Id, "main")] builder initialHeap))))
    = (h', Return c) /\
    render c h' = Return (Some "div#main + table#data") /\
    1 <> c /\ 2 <> c /\
    forall x k v, x <> c ->
      render c (fst (partOp k x v h')) = Return (Some "div#main + table#data").
Proof.
  apply (C4_combine_joins_renders _ builder 1 2 "+" "div#main" "table#data").
  - reflexivity.
  - reflexivity.
Defined.

(** ** C5: parts out of order *)

(** C5, as stated, fails on the kind of the error: after
    [element('a').id('b')] the highest kind seen is Id and Element is lower,
    but [element] throws the error of the cardinality check, which comes
    first, and not the error of the ordering check. *)
Lemma C5_lower_element_throws_duplicate :
  exists h1 r,
    chain [(Element, "a"); (Id, "b")] builder initialHeap = (h1, Return r) /\
    element r "c" h1 = (h1, Throw (Error duplicateMessage)) /\
    duplicateMessage <> orderMessage.
Proof.
  do 2 eexists. split; [reflexivity|]. split; [reflexivity | discriminate].
Qed.

(** C5 (amended): on every chain to which a part of kind [k'] has been
    applied, applying a part of a kind [k] lower than [k'] throws and changes
    nothing.  The error is the ordering error whenever [k] has not itself
    been applied to the chain before (so [id] then [element] raises it);
    only for an Element or an Id that the chain already contains can it be
    the error of the cardinality check instead, and for such an Id it always
    is. *)
Theorem C5_lower_kind_rejected (h h1 : heap) (t r : ref)
    (ops : list (kind * string)) (k k' : kind) (v : string) :
  template h t ->
  chain ops t h = (h1, Return r) ->
  k' ∈ kinds ops ->
  order k < order k' ->
  exists msg,
    partOp k r v h1 = (h1, Throw (Error msg)) /\
    (msg = orderMessage \/
     msg = duplicateMessage /\ k ∈ kinds ops /\ (k = Element \/ k = Id)) /\
    (k ∉ kinds ops -> msg = orderMessage) /\
    (k = Id -> k ∈ kinds ops -> msg = duplicateMessage).
Proof.
  intros Ht Hc Hin Hlt.
  assert (ops <> []) as Hne.
  { intros ->. by apply elem_of_nil in Hin. }
  pose proof (chain_built ops h h1 t r Ht Hne Hc) as (u & Hs & Htr & _).
  assert (flagOf k' u = true) as Hf'.
  { apply (Htr k'); [done|]. intros ->. cbn in Hlt. lia. }
  assert (orderGuard k u = true) as Ho.
  { apply orderGuard_true. eauto. }
  rewrite (partOp_hasState _ _ _ _ _ _ Hs), Ho.
  destruct (dupGuard k u) eqn:Hd.
  - apply dupGuard_true in Hd as [Hf Hk].
    apply (Htr k) in Hf.
    exists duplicateMessage. split; [done|]. split; [|done].
    right. split; [done|]. split; [done|].
    destruct Hk as [-> | [-> | ->]]; auto.
    destruct k'; cbn in Hlt; lia.
  - exists orderMessage. split; [done|]. split; [by left|]. split; [done|].
    intros -> Hk. apply (Htr Id) in Hk; [|done].
    cbn in Hd, Hk. congruence.
Qed.

(** [id] then [element] on the same chain raises the ordering error. *)
Lemma C5_id_then_element :
  exists h1 r,
    chain [(Id, "main")] builder initialHeap = (h1, Return r) /\
    element r "div" h1 = (h1, Throw (Error orderMessage)).
Proof.
  exists (fst (chain [(Id, "main")] builder initialHeap)), 1.
  split; [reflexivity|].
  destruct (C5_lower_kind_rejected initialHeap
              (fst (chain [(Id, "main")] builder initialHeap)) builder 1
              [(Id, "main")] Element Id "div")
    as (msg & Hop & _ & Hmsg & _).
  - split; reflexivity.
  - reflexivity.
  - vm_compute. apply list_elem_of_here.
  - vm_compute. lia.
  - cbn [partOp] in Hop. rewrite Hop, Hmsg; [reflexivity|].
    vm_compute. intros Hin. apply list_elem_of_singleton in Hin. discriminate.
Defined.

(** ** C6: a second element or pseudo-element *)

(** On a chain the flag of a pseudo-element is never lost: a second
    [pseudoElement] always throws the error of the cardinality check. *)
Lemma pseudoElement_twice_on_chain (h h1 : heap) (t r : ref)
    (ops : list (kind * string)) (v : string) :
  template h t ->
  chain ops t h = (h1, Return r) ->
  PseudoElement ∈ kinds ops ->
  pseudoElement r v h1 = (h1, Throw (Error duplicateMessage)).
Proof.
  intros Ht Hc Hin.
  assert (ops <> []) as Hne.
  { intros ->. by apply elem_of_nil in Hin. }
  pose proof (chain_built ops h h1 t r Ht Hne Hc) as (u & Hs & Htr & _).
  apply (Htr PseudoElement) in Hin; [|done].
  change (partOp PseudoElement r v h1 = (h1, Throw (Error duplicateMessage))).
  rewrite (partOp_hasState _ _ _ _ _ _ Hs). cbn [dupGuard flagOf] in *.
  by rewrite Hin.
Qed.

(** While the text of a chain is not empty every part is applied in place,
    and the flag of the element stays. *)
Lemma chain_keeps_element_flag (ops : list (kind * string)) (h h' : heap)
    (r r' : ref) (s : string) (u : UsedSelectors.t) :
  hasState h r s u -> s <> "" -> flagOf Element u = true ->
  chain ops r h = (h', Return r') ->
  exists s' u', hasState h' r' s' u' /\ flagOf Element u' = true.
Proof.
  revert h r s u. induction ops as [|[k v] ops IH]; intros h r s u Hs Hne Hf Hc.
  - cbn in Hc. injection Hc as <- <-. eauto.
  - cbn in Hc. rewrite (partOp_hasState _ _ _ _ _ _ Hs) in Hc.
    destruct (dupGuard k u); [discriminate|].
    destruct (orderGuard k u); [discriminate|].
    destruct (truthy (Some s)) eqn:Htr; [|by apply truthy_Some in Htr].
    eapply IH; [by eapply hasState_extend | | | exact Hc].
    + intros E. by apply append_empty in E as [E _].
    + rewrite flagOf_setFlag. by case_decide.
Qed.

(** Once a flag other than that of the element is set and that of the
    element is not, no element can be applied any more, and the flag of the
    element stays unset. *)
Lemma chain_without_element_flag (ops : list (kind * string)) (h h' : heap)
    (r r' : ref) (s : string) (u : UsedSelectors.t) :
  hasState h r s u -> flagOf Element u = false ->
  (exists k0, k0 <> Element /\ flagOf k0 u = true) ->
  chain ops r h = (h', Return r') ->
  (Element ∉ kinds ops) /\
  exists s' u',
    hasState h' r' s' u' /\ flagOf Element u' = false /\
    exists k1, k1 <> Element /\ flagOf k1 u' = true.
Proof.
  revert h r s u.
  induction ops as [|[k v] ops IH]; intros h r s u Hs Hf (k0 & Hk0 & Hf0) Hc.
  - cbn in Hc. injection Hc as <- <-. split; [apply not_elem_of_nil|].
    eauto 10.
  - cbn in Hc. rewrite (partOp_hasState _ _ _ _ _ _ Hs) in Hc.
    destruct (dupGuard k u) eqn:Hd; [discriminate|].
    destruct (orderGuard k u) eqn:Ho; [discriminate|].
    assert (k <> Element) as Hk.
    { intros ->. assert (orderGuard Element u = true) as Ho'; [|congruence].
      apply orderGuard_true. exists k0. split; [|done].
      destruct k0; cbn; (lia || done). }
    assert (forall h1 r1 s1 u1,
              chain ops r1 h1 = (h', Return r') ->
              hasState h1 r1 s1 u1 -> flagOf Element u1 = false ->
              (exists k1, k1 <> Element /\ flagOf k1 u1 = true) ->
              (Element ∉ kinds ((k, v) :: ops)) /\
              exists s' u',
                hasState h' r' s' u' /\ flagOf Element u' = false /\
                exists k1, k1 <> Element /\ flagOf k1 u' = true) as Hgo.
    { intros h1 r1 s1 u1 Hc1 Hs1 Hf1 Hk1.
      destruct (IH _ _ _ _ Hs1 Hf1 Hk1 Hc1) as [Hnin Hend].
      split; [|done]. cbn. apply not_elem_of_cons. split; [|done].
      by apply not_eq_sym. }
    unfold newInstance in Hc. destruct (truthy (Some s)).
    + eapply Hgo; [exact Hc | by eapply hasState_extend | |].
      * rewrite flagOf_setFlag. by case_decide.
      * exists k. split; [done|]. rewrite flagOf_setFlag. by case_decide.
    + eapply Hgo; [exact Hc | apply hasState_newInstance | |].
      * rewrite flagOf_only. by case_decide.
      * exists k. split; [done|]. rewrite flagOf_only. by case_decide.
Qed.

(** C6, as stated, fails for the element: on the chain
    [element('').id('x')] an element has been applied, but what [element]
    then throws is the error of the ordering check, not that of the
    cardinality check: the part that followed [element('')] started a new
    object whose flags no longer record the element. *)
Lemma C6_element_after_restart_throws_order_error :
  exists h1 r,
    chain [(Element, ""); (Id, "x")] builder initialHeap = (h1, Return r) /\
    Element ∈ kinds [(Element, ""); (Id, "x")] /\
    element r "y" h1 = (h1, Throw (Error orderMessage)) /\
    orderMessage <> duplicateMessage.
Proof.
  do 2 eexists. split; [reflexivity|]. split; [apply list_elem_of_here|].
  split; [reflexivity | discriminate].
Qed.

(** C6 (amended): on every chain started on a builder without state,
    - applying [pseudoElement] when a pseudo-element has already been applied
      throws the error of the cardinality check and changes nothing;
    - applying [element] when an element has already been applied throws and
      changes nothing; the error is that of the cardinality check, except
      when the chain began with [element('')] followed by at least one more
      part: then it is the error of the ordering check. *)
Theorem C6_second_singleton_rejected (h h1 : heap) (t r : ref)
    (ops : list (kind * string)) (v : string) :
  template h t ->
  chain ops t h = (h1, Return r) ->
  (PseudoElement ∈ kinds ops ->
   pseudoElement r v h1 = (h1, Throw (Error duplicateMessage))) /\
  (Element ∈ kinds ops ->
   exists msg,
     element r v h1 = (h1, Throw (Error msg)) /\
     ((forall rest, ops = (Element, "") :: rest -> rest = []) ->
      msg = duplicateMessage) /\
     (forall k' v' rest, ops = (Element, "") :: (k', v') :: rest ->
      msg = orderMessage)).
Proof.
  intros Ht Hc. split; [by eapply pseudoElement_twice_on_chain|].
  intros Hin.
  assert (forall s u, hasState h1 r s u -> flagOf Element u = true ->
            element r v h1 = (h1, Throw (Error duplicateMessage))) as Hdup.
  { intros s u Hs Hf.
    change (partOp Element r v h1 = (h1, Throw (Error duplicateMessage))).
    rewrite (partOp_hasState _ _ _ _ _ _ Hs). cbn [dupGuard flagOf] in *.
    by rewrite Hf. }
  destruct ops as [|[k0 v0] rest]; [by apply elem_of_nil in Hin|].
  cbn [chain] in Hc. rewrite (partOp_template _ _ _ _ Ht) in Hc.
  unfold newInstance in Hc.
  pose proof (hasState_newInstance h t (fragment k0 v0) (only k0)) as Hs0.
  destruct (decide (k0 = Element)) as [->|Hk0].
  - cbn [fragment] in *. destruct (decide (v0 = "")) as [->|Hv0].
    + destruct rest as [|[k' v'] rest'].
      * cbn in Hc. injection Hc as <- <-. exists duplicateMessage.
        split; [by eapply Hdup|]. split; [done|]. intros ? ? ? [=].
      * cbn [chain] in Hc. rewrite (partOp_hasState _ _ _ _ _ _ Hs0) in Hc.
        destruct (decide (k' = Element)) as [->|Hk']; [discriminate|].
        assert (dupGuard k' (only Element) = false) as Hd by (by destruct k').
        assert (orderGuard k' (only Element) = false) as Ho
          by (by destruct k').
        rewrite Hd, Ho in Hc. cbn [truthy] in Hc. unfold newInstance in Hc.
        assert (flagOf Element (only k') = false) as Hfe
          by (rewrite flagOf_only; by case_decide).
        assert (exists k1, k1 <> Element /\ flagOf k1 (only k') = true) as Hfk.
        { exists k'. split; [done|]. rewrite flagOf_only. by case_decide. }
        destruct (chain_without_element_flag rest' _ _ _ _ _ _
                    (hasState_newInstance _ _ (fragment k' v') (only k'))
                    Hfe Hfk Hc)
          as (_ & s' & u' & Hs' & Hf' & k1 & Hk1 & Hf1).
        exists orderMessage. split; [|split; [|done]].
        -- change (partOp Element r v h1 = (h1, Throw (Error orderMessage))).
           rewrite (partOp_hasState _ _ _ _ _ _ Hs'). cbn [dupGuard flagOf] in *.
           rewrite Hf'.
           assert (orderGuard Element u' = true) as ->; [|done].
           apply orderGuard_true. exists k1. split; [|done].
           destruct k1; cbn; (lia || done).
        -- intros Hrest. by specialize (Hrest _ eq_refl).
    + destruct (chain_keeps_element_flag rest _ _ _ _ _ _ Hs0 Hv0 eq_refl Hc)
        as (s' & u' & Hs' & Hf').
      exists duplicateMessage. split; [by eapply Hdup|]. split; [done|].
      intros ? ? ? [=]. done.
  - assert (flagOf Element (only k0) = false) as Hfe
      by (rewrite flagOf_only; by case_decide).
    assert (exists k1, k1 <> Element /\ flagOf k1 (only k0) = true) as Hfk.
    { exists k0. split; [done|]. rewrite flagOf_only. by case_decide. }
    destruct (chain_without_element_flag rest _ _ _ _ _ _ Hs0 Hfe Hfk Hc)
      as (Hnin & _).
    cbn in Hin. apply elem_of_cons in Hin as [Heq | Hin]; [congruence|done].
Qed.

(** [element] twice, and [pseudoElement] twice, on the same chain. *)
Lemma C6_element_twice_pseudoElement_twice :
  pseudoElement 1 "before" (fst (pseudoElement builder "after" initialHeap))
  = (fst (pseudoElement builder "after" initialHeap),
     Throw (Error duplicateMessage))
  /\
  element 1 "span" (fst (element builder "div" initialHeap))
  = (fst (element builder "div" initialHeap), Throw (Error duplicateMessage)).
Proof.
  split.
  - apply (proj1 (C6_second_singleton_rejected initialHeap
                    (fst (pseudoElement builder "after" initialHeap))
                    builder 1 [(PseudoElement, "after")] "before"
                    (conj eq_refl eq_refl) eq_refl)).
    apply list_elem_of_here.
  - destruct (proj2 (C6_second_singleton_rejected initialHeap
                       (fst (element builder "div" initialHeap))
                       builder 1 [(Element, "div")] "span"
                       (conj eq_refl eq_refl) eq_refl))
      as (msg & Hop & Hdup & _); [apply list_elem_of_here|].
    rewrite Hop, Hdup; [reflexivity|]. intros rest [=].
Defined.

(** ** C7: part operations on a composite *)

Lemma getProp_setSelector (n : nat) (h : heap) (r x : ref) (s : string) :
  getProp usedSelectors n (setSelector r s h) x = getProp usedSelectors n h x.
Proof.
  revert x. induction n as [|n IH]; intros x; [done|]. cbn.
  unfold setSelector at 1. rewrite list_lookup_alter.
  case_decide as Hrx; [subst x|].
  - destruct (h !! r) as [o|]; [|done]. cbn.
    destruct (usedSelectors o); [done|]. destruct (proto o); [apply IH | done].
  - destruct (h !! x) as [o|]; [|done].
    destruct (usedSelectors o); [done|]. destruct (proto o); [apply IH | done].
Qed.

Lemma getUsedSelectors_setSelector (h : heap) (r x : ref) (s : string) :
  getUsedSelectors (setSelector r s h) x = getUsedSelectors h x.
Proof.
  unfold getUsedSelectors. rewrite getProp_setSelector.
  unfold setSelector. by rewrite length_alter.
Qed.

Lemma agree_app (h l : heap) : agree h (h ++ l).
Proof. intros i Hi. by apply lookup_app_l. Qed.

(** An object that has no [usedSelectors] of its own sees that of its
    prototype. *)
Lemma getUsedSelectors_inherit (h : heap) (this : ref) (os : option string) :
  wf h = true -> this < length h ->
  getUsedSelectors (h ++ [Obj (Some this) os None]) (length h)
  = getUsedSelectors h this.
Proof.
  intros Hwf Hthis. unfold getUsedSelectors.
  rewrite length_app. cbn [length]. rewrite Nat.add_1_r. cbn [getProp].
  rewrite list_lookup_middle by done. cbn.
  by apply getProp_same; [|apply agree_same, agree_app|].
Qed.

(** The text of a composite is never empty. *)
Lemma truthy_joined (x y : string) : truthy (Some (x +:+ " " +:+ y)) = true.
Proof. by destruct x. Qed.

(** C7, as stated, fails: [combine] is a method, and a composite made by
    calling it on a chain inherits the [usedSelectors] of that chain through
    its prototype.  With [x = element('a')], [b = element('b')] and
    [c = element('c')], the call [x.combine(b, '+', c).id('z')] returns the
    composite, extended to ['b + c#z']. *)
Lemma C7_composite_made_on_a_chain_is_extended :
  exists h1 h2 h3 h4 h5,
    element builder "a" initialHeap = (h1, Return 1) /\
    element builder "b" h1 = (h2, Return 2) /\
    element builder "c" h2 = (h3, Return 3) /\
    combine 1 2 "+" 3 h3 = (h4, Return 4) /\
    id 4 "z" h4 = (h5, Return 4) /\
    render 4 h5 = Return (Some "b + c#z").
Proof.
  do 5 eexists.
  split; [reflexivity|]. split; [reflexivity|]. split; [reflexivity|].
  split; [reflexivity|]. split; reflexivity.
Qed.

(** C7 (amended): a composite produced by [combine] called on a receiver
    that sees no [usedSelectors] (the builder itself, or a composite made
    from it) stringifies to a string, and every part operation applied to
    it throws instead of returning a selector. *)
Theorem C7_composite_rejects_parts (h : heap) (this a b : ref)
    (token : string) :
  wf h = true ->
  this < length h ->
  getUsedSelectors h this = None ->
  exists h1 c,
    combine this a token b h = (h1, Return c) /\
    (exists s, render c h1 = Return (Some s)) /\
    forall k v, exists h2, partOp k c v h1 = (h2, Throw TypeError).
Proof.
  intros Hwf Hthis Hnone. rewrite combine_unfold.
  set (h0 := h ++ [Obj (Some this) None None]).
  set (s := toString (getSelector h0 a) +:+ " " +:+ token +:+ " "
            +:+ toString (getSelector h0 b)).
  do 2 eexists. split; [reflexivity|].
  pose proof (combine_lookup h this s) as Hc. fold h0 in Hc.
  assert (getSelector (setSelector (length h) s h0) (length h) = Some s)
    as Hsel by (by eapply getSelector_own).
  assert (getUsedSelectors (setSelector (length h) s h0) (length h) = None)
    as Hused.
  { rewrite getUsedSelectors_setSelector. unfold h0.
    by rewrite getUsedSelectors_inherit. }
  split; [exists s; by apply render_Some|].
  intros k v. rewrite partOp_unfold. unfold usedCheck.
  rewrite Hused, Hsel. unfold s at 1. rewrite truthy_joined.
  cbn [toString]. unfold markUsed.
  rewrite getUsedSelectors_setSelector, Hused. eauto.
Qed.

Lemma C7_composite_of_builder_rejects_parts :
  exists h1 c,
    combine builder 1 "+" 2
      (fst (element builder "b" (fst (element builder "a" initialHeap))))
    = (h1, Return c) /\
    (exists s, render c h1 = Return (Some s)) /\
    forall k v, exists h2, partOp k c v h1 = (h2, Throw TypeError).
Proof.
  apply (C7_composite_rejects_parts _ builder 1 2 "+").
  - reflexivity.
  - vm_compute. lia.
  - reflexivity.
Defined.

(** ** C8: a failed operation changes nothing *)

(** C8: whenever a part operation or [stringify] throws one of the errors
    the builder raises itself, the heap after the call is the heap before
    it: neither the selector text nor the used kinds of the receiver, nor
    anything else, has changed. *)
Theorem C8_failed_operation_changes_nothing (k : kind) (this : ref)
    (v : string) (h h' : heap) (msg : string) :
  partOp k this v h = (h', Throw (Error msg)) \/
  stringify this h = (h', Throw (Error msg)) ->
  h' = h.
Proof.
  intros [Hop | Hs].
  - rewrite partOp_unfold in Hop. unfold newInstance in Hop.
    repeat case_match; by simplify_eq.
  - unfold stringify in Hs. by simplify_eq.
Qed.

Lemma C8_failed_id_changes_nothing :
  snd (partOp Id 1 "other" (fst (id builder "main" initialHeap)))
  = Throw (Error duplicateMessage) /\
  fst (partOp Id 1 "other" (fst (id builder "main" initialHeap)))
  = fst (id builder "main" initialHeap).
Proof.
  split; [reflexivity|].
  apply (C8_failed_operation_changes_nothing Id 1 "other" _ _
           duplicateMessage).
  left. reflexivity.
Defined.

(** The failure of a part operation on a composite is not of that kind: the
    TypeError is raised by the assignment to [this.usedSelectors], after
    [this.selector += ...] has already been done. *)
Remark part_on_composite_changes_its_text :
  exists h1 h2 h3 h4,
    element builder "a" initialHeap = (h1, Return 1) /\
    element builder "b" h1 = (h2, Return 2) /\
    combine builder 1 ">" 2 h2 = (h3, Return 3) /\
    render 3 h3 = Return (Some "a > b") /\
    class 3 "x" h3 = (h4, Throw TypeError) /\
    render 3 h4 = Return (Some "a > b.x").
Proof.
  do 4 eexists.
  split; [reflexivity|]. split; [reflexivity|]. split; [reflexivity|].
  split; [reflexivity|]. split; reflexivity.
Qed.

(** ** C9: chains started on the builder are independent *)

Lemma agree_trans (h1 h2 h3 : heap) :
  agree h1 h2 -> agree h2 h3 -> agree h1 h3.
Proof.
  intros H12 H23 i Hi. pose proof (agree_length _ _ H12).
  rewrite H23 by lia. by apply H12.
Qed.

Lemma built_valid (ops : list (kind * string)) (h : heap) (r : ref) :
  built ops h r -> r < length h.
Proof. intros (u & [p Hr] & _). by eapply lookup_lt_Some. Qed.

Lemma built_agree (ops : list (kind * string)) (h h' : heap) (r : ref) :
  built ops h r -> agree h h' -> built ops h' r.
Proof.
  intros Hb Hag. pose proof (built_valid _ _ _ Hb) as Hr.
  destruct Hb as (u & [p Hs] & Ht). exists u. split; [|done].
  exists p. by rewrite Hag.
Qed.

(** C9: a part operation called on a builder without state allocates a new
    object with a state of its own (the fragment and the flag of the part
    alone) and leaves every existing object, the builder included, as it
    was; and two chains started one after the other on that builder end on
    two different objects, each of which stringifies to its own fragments,
    while the builder is still without state. *)
Theorem C9_chains_from_builder_independent (h : heap) (t : ref) :
  wf h = true ->
  t < length h ->
  template h t ->
  (forall k v,
     partOp k t v h
     = (h ++ [Obj (Some t) (Some (fragment k v)) (Some (only k))],
        Return (length h))) /\
  (forall ops1 ops2 h1 r1 h2 r2,
     ops1 <> [] -> ops2 <> [] ->
     chain ops1 t h = (h1, Return r1) ->
     chain ops2 t h1 = (h2, Return r2) ->
     r1 <> r2 /\ r1 <> t /\ r2 <> t /\
     agree h h2 /\ template h2 t /\
     render r1 h2 = Return (Some (fragments ops1)) /\
     render r2 h2 = Return (Some (fragments ops2))).
Proof.
  intros Hwf Ht Htpl. split.
  - intros k v. by apply partOp_template.
  - intros ops1 ops2 h1 r1 h2 r2 Hne1 Hne2 Hc1 Hc2.
    destruct (chain_frame _ _ _ _ _ Htpl Hc1) as [Hag1 Hr1].
    specialize (Hr1 r1 eq_refl Hne1).
    pose proof (chain_built _ _ _ _ _ Htpl Hne1 Hc1) as Hb1.
    pose proof (template_agree _ _ _ Hwf Ht Hag1 Htpl) as Htpl1.
    destruct (chain_frame _ _ _ _ _ Htpl1 Hc2) as [Hag2 Hr2].
    specialize (Hr2 r2 eq_refl Hne2).
    pose proof (chain_built _ _ _ _ _ Htpl1 Hne2 Hc2) as Hb2.
    pose proof (built_valid _ _ _ Hb1) as Hv1.
    pose proof (agree_length _ _ Hag1) as Hlen1.
    pose proof (agree_trans _ _ _ Hag1 Hag2) as Hag.
    repeat split; try lia; try done.
    + eapply template_agree; [exact Hwf | exact Ht | exact Hag | apply Htpl].
    + eapply template_agree; [exact Hwf | exact Ht | exact Hag | apply Htpl].
    + apply built_render. by eapply built_agree.
    + by apply built_render.
Qed.

(** [element('a')], then separately [element('div')], on the builder. *)
Lemma C9_element_a_then_element_div :
  exists h1 r1 h2 r2,
    element builder "a" initialHeap = (h1, Return r1) /\
    element builder "div" h1 = (h2, Return r2) /\
    r1 <> r2 /\
    h2 !! builder = initialHeap !! builder /\
    render r1 h2 = Return (Some "a") /\
    render r2 h2 = Return (Some "div").
Proof.
  exists (fst (element builder "a" initialHeap)), 1,
    (fst (element builder "div" (fst (element builder "a" initialHeap)))), 2.
  split; [reflexivity|]. split; [reflexivity|].
  destruct (C9_chains_from_builder_independent initialHeap builder)
    as [_ Hchains].
  - reflexivity.
  - vm_compute. lia.
  - split; reflexivity.
  - destruct (Hchains [(Element, "a")] [(Element, "div")]
                (fst (element builder "a" initialHeap)) 1
                (fst (element builder "div"
                        (fst (element builder "a" initialHeap)))) 2)
      as (Hne & _ & _ & Hag & _ & Hr1 & Hr2);
      [discriminate | discriminate | reflexivity | reflexivity |].
    split; [exact Hne|]. split; [apply Hag; vm_compute; lia|].
    split; [exact Hr1 | exact Hr2].
Defined.

(** ** C10: the part that follows [element('')] *)

(** C10, as stated, fails when the next part is an element:
    [element('').element('x')] allocates nothing and returns no builder, it
    throws the error of the cardinality check. *)
Lemma C10_element_after_empty_element_throws :
  exists h1 b,
    element builder "" initialHeap = (h1, Return b) /\
    element b "x" h1 = (h1, Throw (Error duplicateMessage)).
Proof. do 2 eexists. split; reflexivity. Qed.

(** C10 (amended): when the first part applied to a builder without state is
    [element('')], the next part operation of any kind but Element does not
    extend the object [b] that [element('')] returned: since the selector
    text of [b] is the empty string, which is falsy, it allocates a new
    object [r] behind [b], whose text is the fragment of the new part and
    whose flags are all reset but that of the new part, and returns it; [b]
    is unchanged and still stringifies to the empty string. *)
Theorem C10_part_after_empty_element_restarts (h : heap) (t : ref)
    (k : kind) (v : string) :
  template h t ->
  k <> Element ->
  exists h1 b h2 r,
    element t "" h = (h1, Return b) /\
    partOp k b v h1 = (h2, Return r) /\
    r <> b /\
    h1 !! r = None /\
    h2 !! r = Some (Obj (Some b) (Some (fragment k v)) (Some (only k))) /\
    h2 !! b = h1 !! b /\
    render b h2 = Return (Some "") /\
    render r h2 = Return (Some (fragment k v)).
Proof.
  intros Htpl Hk.
  pose proof (partOp_template Element t "" h Htpl) as He.
  cbn [partOp fragment] in He. unfold newInstance in He.
  set (h1 := h ++ [Obj (Some t) (Some "") (Some (only Element))]) in *.
  assert (hasState h1 (length h) "" (only Element)) as Hs
    by apply hasState_newInstance.
  assert (length h1 = S (length h)) as Hlen.
  { unfold h1. rewrite length_app. cbn. lia. }
  exists h1, (length h),
    (h1 ++ [Obj (Some (length h)) (Some (fragment k v)) (Some (only k))]),
    (length h1).
  split; [exact He|]. split.
  { rewrite (partOp_hasState _ _ _ _ _ _ Hs).
    assert (dupGuard k (only Element) = false) as -> by (by destruct k).
    assert (orderGuard k (only Element) = false) as -> by (by destruct k).
    reflexivity. }
  destruct Hs as [p Hb].
  split; [lia|]. split; [by apply lookup_ge_None|].
  split; [by apply list_lookup_middle|].
  split; [apply lookup_app_l; lia|].
  split; apply render_Some.
  - apply (getSelector_own _ _ (Obj p (Some "") (Some (only Element))));
      [|reflexivity].
    rewrite lookup_app_l by lia. exact Hb.
  - apply (getSelector_own _ _
             (Obj (Some (length h)) (Some (fragment k v)) (Some (only k))));
      [by apply list_lookup_middle | reflexivity].
Qed.

(** [element('').id('x')] on the builder. *)
Lemma C10_id_after_empty_element :
  exists h1 b h2 r,
    element builder "" initialHeap = (h1, Return b) /\
    partOp Id b "x" h1 = (h2, Return r) /\
    r <> b /\
    h1 !! r = None /\
    h2 !! r = Some (Obj (Some b) (Some "#x") (Some (only Id))) /\
    h2 !! b = h1 !! b /\
    render b h2 = Return (Some "") /\
    render r h2 = Return (Some "#x").
Proof.
  apply (C10_part_after_empty_element_restarts initialHeap builder Id "x").
  - split; reflexivity.
  - discriminate.
Defined.

(** * Further properties of the builder *)

(** ** More on reading the heap *)

(** The object a read stops at owns the property. *)
Lemma getProp_owner {A : Type} (field : object -> option A) (n : nat)
    (h : heap) (x r : ref) (v : A) :
  getProp field n h x = Some (r, v) ->
  exists o, h !! r = Some o /\ field o = Some v.
Proof.
  revert x. induction n as [|n IH]; intros x Hg; [done|]. cbn in Hg.
  destruct (h !! x) as [o|] eqn:Ho; [|done].
  destruct (field o) as [v'|] eqn:Hf.
  - injection Hg as <- <-. eauto.
  - destruct (proto o); [by eapply IH | done].
Qed.

(** A successful read is the same in every heap that keeps the old objects
    and gives the walk at least as many steps. *)
Lemma getProp_agree_Some {A : Type} (field : object -> option A) (n m : nat)
    (h h' : heap) (r : ref) (x : ref * A) :
  getProp field n h r = Some x -> agree h h' -> n <= m ->
  getProp field m h' r = Some x.
Proof.
  intros Hg Hag. revert m r Hg. induction n as [|n IH]; intros m r Hg Hle;
    [done|].
  destruct m as [|m]; [lia|]. cbn in Hg |- *.
  destruct (h !! r) as [o|] eqn:Ho; [|done].
  rewrite (Hag r (lookup_lt_Some _ _ _ Ho)), Ho.
  destruct (field o); [done|]. destruct (proto o); [|done].
  apply IH; [done | lia].
Qed.

Lemma getSelector_agree (h h' : heap) (r : ref) (s : string) :
  getSelector h r = Some s -> agree h h' -> getSelector h' r = Some s.
Proof.
  unfold getSelector. intros Hg Hag.
  destruct (getProp selector (length h) h r) as [[owner s']|] eqn:Hp;
    [|done].
  rewrite (getProp_agree_Some selector _ (length h') h h' r _ Hp Hag);
    [done|]. by apply agree_length.
Qed.

Lemma truthy_valid (h : heap) (this : ref) :
  truthy (getSelector h this) = true -> this < length h.
Proof.
  unfold getSelector. intros Ht.
  destruct (getProp selector (length h) h this) as [x|] eqn:Hp; [|done].
  by eapply getProp_valid.
Qed.

Lemma truthy_toString (v : option string) :
  truthy v = true -> v = Some (toString v).
Proof. by destruct v. Qed.

(** [combine] adds one object and changes none. *)
Lemma combine_agree (h : heap) (this : ref) (s : string) :
  agree h (setSelector (length h) s (h ++ [Obj (Some this) None None])).
Proof.
  intros i Hi. unfold setSelector.
  rewrite list_lookup_alter_ne by lia. by apply lookup_app_l.
Qed.

(** ** X1: the chains the builder accepts *)

Lemma nondecreasing_snoc (ks : list kind) (k : kind) :
  nondecreasing ks = true ->
  (forall k', k' ∈ ks -> order k' <= order k) ->
  nondecreasing (ks ++ [k]) = true.
Proof.
  induction ks as [|a ks IH]; intros Hnd Hle; [done|].
  destruct ks as [|b ks].
  - cbn. rewrite andb_true_r. apply Nat.leb_le, Hle, list_elem_of_here.
  - cbn in Hnd. apply andb_true_iff in Hnd as [Hab Hnd].
    change (nondecreasing ((a :: b :: ks) ++ [k]))
      with ((order a <=? order b) && nondecreasing ((b :: ks) ++ [k])).
    rewrite Hab. cbn [andb]. apply IH; [done|].
    intros k' Hin. apply Hle. by apply list_elem_of_further.
Qed.

Lemma occurrences_snoc (j k : kind) (ks : list kind) :
  occurrences j (ks ++ [k])
  = occurrences j ks + (if decide (k = j) then 1 else 0).
Proof.
  unfold occurrences. rewrite filter_app, length_app. f_equal.
  rewrite filter_cons. by case_decide.
Qed.

Lemma occurrences_notin (k : kind) (ks : list kind) :
  k ∉ ks -> occurrences k ks = 0.
Proof.
  unfold occurrences. intros Hnin.
  destruct (filter (fun k' => k' = k) ks) as [|x l] eqn:Hf; [done|].
  assert (x ∈ filter (fun k' => k' = k) ks) as Hx
    by (rewrite Hf; apply list_elem_of_here).
  apply list_elem_of_filter in Hx as [-> Hin]. done.
Qed.

Lemma atMostOnce_snoc (j k : kind) (ks : list kind) :
  atMostOnce j ks = true ->
  (k = j -> k ∉ ks) ->
  atMostOnce j (ks ++ [k]) = true.
Proof.
  unfold atMostOnce. intros Hle Hk. apply Nat.leb_le in Hle.
  apply Nat.leb_le. rewrite occurrences_snoc. case_decide as Hkj; [|lia].
  subst j. rewrite (occurrences_notin k ks); [lia | auto].
Qed.

Lemma accepted_snoc (ks : list kind) (k : kind) :
  accepted ks = true ->
  (forall k', k' ∈ ks -> order k' <= order k) ->
  (k = Element \/ k = Id \/ k = PseudoElement -> k ∉ ks) ->
  accepted (ks ++ [k]) = true.
Proof.
  unfold accepted. rewrite !andb_true_iff.
  intros [[[Hnd He] Hi] Hp] Hle Hdup.
  repeat split.
  - by apply nondecreasing_snoc.
  - apply atMostOnce_snoc; [done|]. intros ->. auto.
  - apply atMostOnce_snoc; [done|]. intros ->. auto.
  - apply atMostOnce_snoc; [done|]. intros ->. auto.
Qed.

(** A part that a chain lets through is in order after all the parts
    applied before it, and is not a second Element, Id or PseudoElement. *)
Lemma partOp_return_in_order (pre : list (kind * string)) (h h' : heap)
    (r r' : ref) (k : kind) (v : string) :
  built pre h r ->
  partOp k r v h = (h', Return r') ->
  (forall k', k' ∈ kinds pre -> order k' <= order k) /\
  (k = Element \/ k = Id \/ k = PseudoElement -> k ∉ kinds pre).
Proof.
  intros (u & Hs & Htr & Hel) Hop.
  rewrite (partOp_hasState _ _ _ _ _ _ Hs) in Hop.
  destruct (dupGuard k u) eqn:Hd; [discriminate|].
  destruct (orderGuard k u) eqn:Ho; [discriminate|]. clear Hop.
  assert (forall k', k' ∈ kinds pre -> order k' <= order k) as Hle.
  { intros k' Hin. destruct (decide (order k' <= order k)) as [|Hgt]; [done|].
    assert (orderGuard k u = true) as Ho'; [|congruence].
    apply orderGuard_true. exists k'. split; [lia|].
    apply (Htr k'); [done|]. intros ->. cbn in Hgt. lia. }
  split; [done|]. intros Hk Hin. rewrite (dupGuard_flag _ u Hk) in Hd.
  destruct (decide (k = Element)) as [->|HkE].
  - destruct (Hel Hin) as [Hf | (k' & Hin' & Hne)]; [congruence|].
    specialize (Hle k' Hin'). destruct k'; cbn in Hle; (lia || done).
  - apply (Htr k) in Hin; [congruence | done].
Qed.

Lemma chain_return_accepted_from (ops pre : list (kind * string))
    (h h' : heap) (r r' : ref) :
  built pre h r ->
  accepted (kinds pre) = true ->
  chain ops r h = (h', Return r') ->
  accepted (kinds (pre ++ ops)) = true.
Proof.
  revert pre h r. induction ops as [|[k v] ops IH]; intros pre h r Hb Hacc Hc.
  - by rewrite app_nil_r.
  - cbn in Hc. destruct (partOp k r v h) as [h1 [r1|e]] eqn:Hop;
      [|discriminate].
    destruct (partOp_return_in_order _ _ _ _ _ _ _ Hb Hop) as [Hle Hdup].
    rewrite (cons_middle (k, v)), app_assoc.
    eapply IH; [by eapply built_step | | exact Hc].
    rewrite kinds_snoc. by apply accepted_snoc.
Qed.

(** X1: a chain of part operations started on a builder without state
    returns a selector if and only if its kinds are in non-decreasing order
    with Element, Id and PseudoElement occurring at most once each; every
    other chain throws. *)
Theorem X1_chain_returns_iff_accepted (h : heap) (t : ref)
    (ops : list (kind * string)) :
  template h t ->
  (exists h' r, chain ops t h = (h', Return r))
  <-> accepted (kinds ops) = true.
Proof.
  intros Ht. split; [|by apply chain_accepted].
  intros (h' & r & Hc). destruct ops as [|[k v] ops]; [done|].
  cbn in Hc. rewrite (partOp_template _ _ _ _ Ht) in Hc.
  unfold newInstance in Hc.
  change ((k, v) :: ops) with ([(k, v)] ++ ops).
  eapply chain_return_accepted_from; [apply built_first | | exact Hc].
  by destruct k.
Qed.

Lemma X1_attr_before_class_throws :
  accepted (kinds [(Element, "a"); (Attribute, "href"); (Class, "x")]) = false
  /\ ~ exists h' r,
       chain [(Element, "a"); (Attribute, "href"); (Class, "x")]
         builder initialHeap = (h', Return r).
Proof.
  split; [reflexivity|]. intros Hret.
  apply (X1_chain_returns_iff_accepted initialHeap builder) in Hret;
    [discriminate|]. split; reflexivity.
Defined.

(** ** X2: the text of what a part method returns *)

(** The two assignments of the in-place branch leave the receiver with the
    text that was assigned. *)
Lemma markUsed_selector (set : UsedSelectors.t -> UsedSelectors.t)
    (this : ref) (s : string) (h h2 : heap) :
  this < length h ->
  markUsed set this (setSelector this s h) = Some h2 ->
  getSelector h2 this = Some s.
Proof.
  intros Hthis Hm. unfold markUsed in Hm.
  destruct (getUsedSelectors (setSelector this s h) this) as [[owner u]|];
    [|done].
  injection Hm as <-.
  destruct (lookup_lt_is_Some_2 h this Hthis) as [o Ho].
  assert (setSelector this s h !! this
          = Some (Obj (proto o) (Some s) (usedSelectors o))) as H1.
  { unfold setSelector. by rewrite list_lookup_alter_eq, Ho. }
  destruct (decide (owner = this)) as [->|Hne].
  - eapply getSelector_own; [by rewrite list_lookup_alter_eq, H1|done].
  - eapply getSelector_own; [by rewrite list_lookup_alter_ne, H1|done].
Qed.

(** X2: whatever the receiver, a part method of kind [k] that returns,
    returns an object that stringifies to the text the receiver stringified
    to, followed by the fragment of the part; on a receiver without text,
    to the fragment alone. *)
Theorem X2_returned_selector_text (k : kind) (this r : ref) (v : string)
    (h h' : heap) :
  partOp k this v h = (h', Return r) ->
  render r h' =
  Return (Some (match getSelector h this with
                | Some s => s +:+ fragment k v
                | None => fragment k v
                end)).
Proof.
  intros Hop. rewrite partOp_unfold in Hop. unfold newInstance in Hop.
  destruct (usedCheck (dupGuard k) h this); [discriminate|].
  destruct (usedCheck (orderGuard k) h this); [discriminate|].
  destruct (truthy (getSelector h this)) eqn:Htr.
  - pose proof (truthy_valid _ _ Htr) as Hthis.
    apply truthy_toString in Htr. cbn zeta in Hop.
    destruct (markUsed _ _ _) as [h2|] eqn:Hm; [|discriminate].
    injection Hop as <- <-. apply render_Some.
    rewrite Htr at 1. by eapply markUsed_selector.
  - injection Hop as <- <-. apply render_Some.
    erewrite getSelector_own; [|by apply list_lookup_middle|reflexivity].
    destruct (getSelector h this) as [[|c s]|]; done.
Qed.

(** [class('x')] on the composite of a chain object: the text of the
    composite, then ['.x']. *)
Lemma X2_class_on_composite_of_chain :
  render 3 (fst (class 3 "x" (fst (combine 1 1 ">" 2
     (fst (element builder "b" (fst (element builder "a" initialHeap))))))))
  = Return (Some "a > b.x").
Proof.
  apply (X2_returned_selector_text Class 3 3 "x"
           (fst (combine 1 1 ">" 2
              (fst (element builder "b"
                 (fst (element builder "a" initialHeap))))))).
  reflexivity.
Defined.

(** ** X3: when a part method throws a TypeError *)

(** X3: a part method throws a TypeError exactly when its receiver sees a
    non-empty selector text but no [usedSelectors]; the fragment has then
    already been appended: the receiver stringifies to the extended
    text. *)
Theorem X3_type_error_after_append (k : kind) (this : ref) (v : string)
    (h : heap) :
  ((exists h', partOp k this v h = (h', Throw TypeError))
   <-> truthy (getSelector h this) = true /\ getUsedSelectors h this = None)
  /\
  (forall h', partOp k this v h = (h', Throw TypeError) ->
     render this h'
     = Return (Some (toString (getSelector h this) +:+ fragment k v))).
Proof.
  rewrite partOp_unfold. unfold newInstance, usedCheck, markUsed.
  rewrite getUsedSelectors_setSelector.
  destruct (getUsedSelectors h this) as [[owner u]|] eqn:Hu.
  - split; [split|].
    + intros [h' Hop]. repeat case_match; discriminate.
    + intros [_ ?]. discriminate.
    + intros h' Hop. repeat case_match; discriminate.
  - destruct (truthy (getSelector h this)) eqn:Htr.
    + pose proof (truthy_valid _ _ Htr) as Hthis.
      split; [split; eauto|]. intros h' [= <-]. apply render_Some.
      destruct (lookup_lt_is_Some_2 h this Hthis) as [o Ho].
      apply (getSelector_own _ _
               (Obj (proto o)
                  (Some (toString (getSelector h this) +:+ fragment k v))
                  (usedSelectors o))); [|reflexivity].
      unfold setSelector. by rewrite list_lookup_alter_eq, Ho.
    + split; [split|].
      * intros [h' Hop]. discriminate.
      * intros [? _]. discriminate.
      * intros h' Hop. discriminate.
Qed.

(** ** X4: what a part method never undoes *)

(** X4: a part method, whether it returns or throws, removes no object,
    changes no prototype link, takes no [selector] and no [usedSelectors]
    away from an object, gives no [usedSelectors] to an object that had none,
    and clears no flag. *)
Theorem X4_nothing_is_undone (k : kind) (this : ref) (v : string)
    (h h' : heap) (res : completion ref) (i : ref) (o : object) :
  partOp k this v h = (h', res) ->
  h !! i = Some o ->
  exists o',
    h' !! i = Some o' /\
    proto o' = proto o /\
    (is_Some (selector o) -> is_Some (selector o')) /\
    match usedSelectors o with
    | None => usedSelectors o' = None
    | Some u =>
        exists u', usedSelectors o' = Some u' /\
          forall k', flagOf k' u = true -> flagOf k' u' = true
    end.
Proof.
  intros Hop Hi. rewrite partOp_unfold in Hop. unfold newInstance in Hop.
  assert (forall (hx : heap) (o0 : object),
            hx !! i = Some o0 -> proto o0 = proto o ->
            usedSelectors o0 = usedSelectors o ->
            (is_Some (selector o) -> is_Some (selector o0)) ->
            exists o', hx !! i = Some o' /\ proto o' = proto o /\
              (is_Some (selector o) -> is_Some (selector o')) /\
              match usedSelectors o with
              | None => usedSelectors o' = None
              | Some u => exists u', usedSelectors o' = Some u' /\
                  forall k', flagOf k' u = true -> flagOf k' u' = true
              end) as Hfin.
  { intros hx o0 H1 H2 H3 H4. exists o0. rewrite H3.
    repeat split; try done. destruct (usedSelectors o); eauto. }
  set (s1 := toString (getSelector h this) +:+ fragment k v) in *.
  assert (exists o1, setSelector this s1 h !! i = Some o1 /\
            proto o1 = proto o /\ usedSelectors o1 = usedSelectors o /\
            (is_Some (selector o) -> is_Some (selector o1)))
    as (o1 & Hi1 & Hp1 & Hu1 & Hs1).
  { unfold setSelector. rewrite list_lookup_alter.
    case_decide as Hti; [subst i; rewrite Hi; cbn|]; eauto 10. }
  destruct (usedCheck (dupGuard k) h this);
    [injection Hop as <- <-; by eapply Hfin|].
  destruct (usedCheck (orderGuard k) h this);
    [injection Hop as <- <-; by eapply Hfin|].
  destruct (truthy (getSelector h this)); cbn zeta in Hop.
  - unfold markUsed in Hop.
    destruct (getUsedSelectors (setSelector this s1 h) this)
      as [[owner u0]|] eqn:Hu0.
    + injection Hop as <- <-.
      destruct (decide (owner = i)) as [->|Hoi].
      * apply getProp_owner in Hu0 as (o1' & Ho1' & Hf).
        rewrite Hi1 in Ho1'. injection Ho1' as <-.
        eexists. split; [by rewrite list_lookup_alter_eq, Hi1|].
        cbn. split; [done|]. split; [by destruct o1|].
        rewrite <- Hu1, Hf. eexists. split; [done|].
        intros k' Hk'. rewrite flagOf_setFlag. by case_decide.
      * eapply Hfin; [by rewrite list_lookup_alter_ne|done..].
    + injection Hop as <- <-. by eapply Hfin.
  - injection Hop as <- <-.
    eapply Hfin; [by apply lookup_app_l_Some|done..].
Qed.

Lemma X4_flag_of_element_survives :
  exists o',
    fst (id 1 "main" (fst (element builder "div" initialHeap))) !! 1
    = Some o' /\
    proto o' = Some builder /\
    (is_Some (Some "div") -> is_Some (selector o')) /\
    exists u', usedSelectors o' = Some u' /\
      forall k', flagOf k' (only Element) = true -> flagOf k' u' = true.
Proof.
  apply (X4_nothing_is_undone Id 1 "main"
           (fst (element builder "div" initialHeap)) _
           (snd (id 1 "main" (fst (element builder "div" initialHeap))))
           1 (Obj (Some builder) (Some "div") (Some (only Element)))).
  - reflexivity.
  - reflexivity.
Defined.

(** ** X5: the builder itself is never written to *)

Lemma getProp_root {A : Type} (field : object -> option A) (h : heap)
    (b : ref) :
  h !! b = Some (Obj None None None) ->
  (forall o, o = Obj None None None -> field o = None) ->
  getProp field (length h) h b = None.
Proof.
  intros Hb Hf. destruct (length h); [done|]. cbn.
  rewrite Hb, (Hf _ eq_refl). done.
Qed.

(** X5: an object that has no prototype and no property of its own, as
    [cssSelectorBuilder] itself, is left so by every part method and by
    [combine], whatever the receiver and the arguments. *)
Theorem X5_builder_never_written (h : heap) (b : ref) :
  h !! b = Some (Obj None None None) ->
  (forall k this v,
     fst (partOp k this v h) !! b = Some (Obj None None None)) /\
  (forall this s1 token s2,
     fst (combine this s1 token s2 h) !! b = Some (Obj None None None)).
Proof.
  intros Hb. pose proof (lookup_lt_Some _ _ _ Hb) as Hlt. split.
  - intros k this v. rewrite partOp_unfold. unfold newInstance.
    destruct (usedCheck (dupGuard k) h this); [done|].
    destruct (usedCheck (orderGuard k) h this); [done|].
    destruct (truthy (getSelector h this)) eqn:Htr; cbn zeta.
    + assert (this <> b) as Hne.
      { intros ->. unfold getSelector in Htr.
        rewrite (getProp_root selector _ _ Hb) in Htr; [done|by intros ? ->]. }
      set (h1 := setSelector this _ h).
      assert (h1 !! b = Some (Obj None None None)) as Hb1.
      { unfold h1, setSelector. by rewrite list_lookup_alter_ne. }
      unfold markUsed.
      destruct (getUsedSelectors h1 this) as [[owner u]|] eqn:Hu; [|done].
      cbn [fst]. rewrite list_lookup_alter_ne; [done|].
      intros ->. apply getProp_owner in Hu as (o & Ho & Hf).
      rewrite Hb1 in Ho. by injection Ho as <-.
    + cbn [fst]. by apply lookup_app_l_Some.
  - intros this s1 token s2. rewrite combine_unfold. cbn [fst].
    by rewrite combine_agree.
Qed.

Lemma X5_builder_never_written_witness :
  (forall k this v,
     fst (partOp k this v (fst (element builder "div" initialHeap)))
       !! builder = Some (Obj None None None)) /\
  (forall this s1 token s2,
     fst (combine this s1 token s2 (fst (element builder "div" initialHeap)))
       !! builder = Some (Obj None None None)).
Proof.
  apply (X5_builder_never_written
           (fst (element builder "div" initialHeap)) builder).
  reflexivity.
Defined.

(** ** X6: combine with any operands *)

Lemma getSelector_stable (h h' : heap) (x : ref) :
  wf h = true -> agree h h' -> x < length h ->
  getSelector h' x = getSelector h x.
Proof.
  intros Hwf Hag Hx. unfold getSelector.
  by rewrite (getProp_stable selector h h' x Hwf (agree_same _ _ _ Hag)
                (agree_length _ _ Hag) Hx).
Qed.

(** X6: in a well-formed heap [combine] never throws, whatever its operands
    stringify to: it changes no existing object and returns a new object
    with the receiver as prototype, no [usedSelectors] of its own, and the
    text made of what the operands stringify to, converted to strings, around
    the token; an operand without selector text, as the builder itself,
    contributes the text ['undefined']. *)
Theorem X6_combine_any_operands (h : heap) (this a b : ref) (token : string) :
  wf h = true ->
  a < length h ->
  b < length h ->
  exists h',
    combine this a token b h = (h', Return (length h)) /\
    agree h h' /\
    h' !! length h
    = Some (Obj (Some this)
              (Some (toString (getSelector h a) +:+ " " +:+ token +:+ " "
                     +:+ toString (getSelector h b))) None) /\
    render (length h) h'
    = Return (Some (toString (getSelector h a) +:+ " " +:+ token +:+ " "
                    +:+ toString (getSelector h b))).
Proof.
  intros Hwf Ha Hb. rewrite combine_unfold.
  rewrite !(getSelector_stable h _ _ Hwf (agree_app h _)) by done.
  eexists. split; [reflexivity|]. split; [apply combine_agree|].
  split; [apply combine_lookup|].
  apply render_Some. eapply getSelector_own; [apply combine_lookup|done].
Qed.

(** [combine(cssSelectorBuilder, '+', element('a'))]. *)
Lemma X6_combine_with_the_builder :
  exists h',
    combine builder builder "+" 1 (fst (element builder "a" initialHeap))
    = (h', Return 2) /\
    agree (fst (element builder "a" initialHeap)) h' /\
    h' !! 2 = Some (Obj (Some builder) (Some "undefined + a") None) /\
    render 2 h' = Return (Some "undefined + a").
Proof.
  apply (X6_combine_any_operands (fst (element builder "a" initialHeap))
           builder builder 1 "+").
  - reflexivity.
  - vm_compute. lia.
  - vm_compute. lia.
Defined.

(** ** X7: nested combinations are flat *)

(** What [combine] returns and what it keeps, for operands with a text. *)
Lemma combine_text (h : heap) (this a b : ref) (token sa sb : string) :
  getSelector h a = Some sa ->
  getSelector h b = Some sb ->
  exists h',
    combine this a token b h = (h', Return (length h)) /\
    agree h h' /\
    getSelector h' (length h)
    = Some (sa +:+ " " +:+ token +:+ " " +:+ sb).
Proof.
  intros Ha Hb. rewrite combine_unfold.
  rewrite (getSelector_app h _ a sa Ha), (getSelector_app h _ b sb Hb).
  cbn [toString]. eexists. split; [reflexivity|].
  split; [apply combine_agree|].
  eapply getSelector_own; [apply combine_lookup|done].
Qed.

(** X7: the text of a combination keeps no trace of how it was nested:
    [combine(combine(a, t1, b), t2, c)] and [combine(a, t1, combine(b, t2, c))]
    stringify to the same text, [a t1 b t2 c] with one space around each
    token. *)
Theorem X7_nested_combine_is_flat (h : heap) (this a b c : ref)
    (t1 t2 sa sb sc : string) :
  render a h = Return (Some sa) ->
  render b h = Return (Some sb) ->
  render c h = Return (Some sc) ->
  exists hl l hl' l' hr r hr' r',
    combine this a t1 b h = (hl, Return l) /\
    combine this l t2 c hl = (hl', Return l') /\
    combine this b t2 c h = (hr, Return r) /\
    combine this a t1 r hr = (hr', Return r') /\
    render l' hl'
    = Return (Some (sa +:+ " " +:+ t1 +:+ " " +:+ sb +:+ " " +:+ t2
                    +:+ " " +:+ sc)) /\
    render r' hr' = render l' hl'.
Proof.
  intros Ha Hb Hc. apply render_Some in Ha, Hb, Hc.
  destruct (combine_text h this a b t1 sa sb Ha Hb) as (hl & Hl & Hagl & Htl).
  destruct (combine_text hl this (length h) c t2 _ sc Htl
              (getSelector_agree _ _ _ _ Hc Hagl)) as (hl' & Hl' & _ & Htl').
  destruct (combine_text h this b c t2 sb sc Hb Hc) as (hr & Hr & Hagr & Htr).
  destruct (combine_text hr this a (length h) t1 sa _
              (getSelector_agree _ _ _ _ Ha Hagr) Htr)
    as (hr' & Hr' & _ & Htr').
  exists hl, (length h), hl', (length hl), hr, (length h), hr', (length hr).
  repeat (split; [done|]).
  assert (render (length hl) hl'
          = Return (Some (sa +:+ " " +:+ t1 +:+ " " +:+ sb +:+ " " +:+ t2
                          +:+ " " +:+ sc))) as Hleft.
  { apply render_Some. rewrite Htl'. by rewrite !append_assoc. }
  split; [done|]. rewrite Hleft. by apply render_Some.
Qed.

(** [div + table ~ tr], nested to the left and to the right. *)
Lemma X7_div_table_tr :
  exists hl l hl' l' hr r hr' r',
    combine builder 1 "+" 2
      (fst (chain [(Element, "tr")] builder
         (fst (chain [(Element, "table")] builder
            (fst (chain [(Element, "div")] builder initialHeap))))))
    = (hl, Return l) /\
    combine builder l "~" 3 hl = (hl', Return l') /\
    combine builder 2 "~" 3
      (fst (chain [(Element, "tr")] builder
         (fst (chain [(Element, "table")] builder
            (fst (chain [(Element, "div")] builder initialHeap))))))
    = (hr, Return r) /\
    combine builder 1 "+" r hr = (hr', Return r') /\
    render l' hl' = Return (Some "div + table ~ tr") /\
    render r' hr' = render l' hl'.
Proof.
  apply (X7_nested_combine_is_flat _ builder 1 2 3 "+" "~" "div" "table" "tr").
  - reflexivity.
  - reflexivity.
  - reflexivity.
Defined.

(** ** X8: a composite made on a chain shares the flags of the chain *)

(** X8: when [combine] is called on a chain object [x] (an object with a
    [selector] and a [usedSelectors] of its own), a part method applied to
    the composite, of a kind that the guards of [x] let through, returns the
    composite with the fragment appended, and records the kind in the
    [usedSelectors] of [x]; the text of [x] is unchanged, and the composite
    still has no [usedSelectors] of its own. *)
Theorem X8_composite_marks_receiver_of_combine (h : heap) (x a b : ref)
    (token s : string) (u : UsedSelectors.t) (k : kind) (v : string) :
  wf h = true ->
  hasState h x s u ->
  dupGuard k u = false ->
  orderGuard k u = false ->
  exists h1 c h2 text,
    combine x a token b h = (h1, Return c) /\
    render c h1 = Return (Some text) /\
    partOp k c v h1 = (h2, Return c) /\
    h2 !! c = Some (Obj (Some x) (Some (text +:+ fragment k v)) None) /\
    hasState h2 x s (setFlag k u).
Proof.
  intros Hwf Hs Hd Ho. pose proof Hs as [p Hx].
  pose proof (lookup_lt_Some _ _ _ Hx) as Hlt.
  rewrite combine_unfold.
  set (h0 := h ++ [Obj (Some x) None None]).
  set (text := toString (getSelector h0 a) +:+ " " +:+ token +:+ " "
               +:+ toString (getSelector h0 b)).
  set (h1 := setSelector (length h) text h0).
  pose proof (combine_lookup h x text) as Hc. fold h0 h1 in Hc.
  assert (getSelector h1 (length h) = Some text) as Hsel
    by (by eapply getSelector_own).
  assert (getUsedSelectors h0 (length h) = Some (x, u)) as Hu0.
  { unfold h0. rewrite getUsedSelectors_inherit by done.
    by eapply hasState_getUsedSelectors. }
  assert (getUsedSelectors h1 (length h) = Some (x, u)) as Hu1.
  { unfold h1. by rewrite getUsedSelectors_setSelector. }
  exists h1, (length h),
    (alter (fun o => Obj (proto o) (selector o) (Some (setFlag k u))) x
       (setSelector (length h) (text +:+ fragment k v) h1)),
    text.
  split; [reflexivity|]. split; [by apply render_Some|].
  assert (x <> length h) as Hne by lia.
  split; [|split].
  - rewrite partOp_unfold. unfold usedCheck. rewrite Hu1, Hd, Ho, Hsel.
    unfold text at 1. rewrite truthy_joined. cbn [toString].
    unfold markUsed. by rewrite getUsedSelectors_setSelector, Hu1.
  - rewrite list_lookup_alter_ne by done. unfold setSelector at 1.
    by rewrite list_lookup_alter_eq, Hc.
  - exists p. rewrite list_lookup_alter_eq. unfold setSelector at 1.
    rewrite list_lookup_alter_ne by lia. unfold h1, setSelector.
    rewrite list_lookup_alter_ne by lia. unfold h0.
    by rewrite (lookup_app_l_Some _ _ _ _ Hx).
Qed.

(** [x = element('a')]; [x.combine(x, '>', x).id('z')] marks the id in the
    flags of [x]. *)
Lemma X8_id_on_composite_marks_chain :
  exists h1 c h2 text,
    combine 1 1 ">" 1 (fst (element builder "a" initialHeap))
    = (h1, Return c) /\
    render c h1 = Return (Some text) /\
    partOp Id c "z" h1 = (h2, Return c) /\
    h2 !! c = Some (Obj (Some 1) (Some (text +:+ "#z")) None) /\
    hasState h2 1 "a" (UsedSelectors.mk true true false false false false).
Proof.
  apply (X8_composite_marks_receiver_of_combine
           (fst (element builder "a" initialHeap)) 1 1 1 ">" "a"
           (UsedSelectors.mk true false false false false false) Id "z").
  - reflexivity.
  - exists (Some builder). reflexivity.
  - reflexivity.
  - reflexivity.
Defined.

(** ** X9: prototype chains stay well-founded *)

Lemma partOp_grows (k : kind) (this : ref) (v : string) (h h' : heap)
    (res : completion ref) :
  this < length h ->
  partOp k this v h = (h', res) ->
  length h <= length h' /\ forall r, res = Return r -> r < length h'.
Proof.
  intros Hthis Hop. rewrite partOp_unfold in Hop. unfold newInstance in Hop.
  destruct (usedCheck (dupGuard k) h this);
    [injection Hop as <- <-; split; [lia | done]|].
  destruct (usedCheck (orderGuard k) h this);
    [injection Hop as <- <-; split; [lia | done]|].
  destruct (truthy (getSelector h this)); cbn zeta in Hop.
  - unfold markUsed in Hop.
    destruct (getUsedSelectors _ this) as [[owner u]|].
    + injection Hop as <- <-. unfold setSelector. rewrite !length_alter.
      split; [lia|]. by intros r [= <-].
    + injection Hop as <- <-. unfold setSelector. rewrite length_alter.
      split; [lia | done].
  - injection Hop as <- <-. rewrite length_app. cbn.
    split; [lia|]. intros r [= <-]. lia.
Qed.

(** X9: in a heap where the prototype of every object is an older object,
    every part method and [combine], called on an existing receiver, leave a
    heap of that kind again, forget no object, and return an object of the
    new heap: prototype chains never become cyclic, so every property read
    ends. *)
Theorem X9_prototypes_stay_older (h : heap) (this : ref) :
  wf h = true ->
  this < length h ->
  (forall k v h' res,
     partOp k this v h = (h', res) ->
     wf h' = true /\ length h <= length h' /\
     forall r, res = Return r -> r < length h') /\
  (forall a token b h' res,
     combine this a token b h = (h', res) ->
     wf h' = true /\ length h <= length h' /\
     forall r, res = Return r -> r < length h').
Proof.
  intros Hwf Hthis. split.
  - intros k v h' res Hop. split; [by eapply wf_partOp|].
    by eapply partOp_grows.
  - intros a token b h' res Hc. split; [by eapply wf_combine|].
    rewrite combine_unfold in Hc. injection Hc as <- <-.
    unfold setSelector. rewrite length_alter, length_app. cbn.
    split; [lia|]. intros r [= <-]. lia.
Qed.

Lemma X9_prototypes_stay_older_witness :
  (forall k v h' res,
     partOp k 1 v (fst (element builder "a" initialHeap)) = (h', res) ->
     wf h' = true /\
     length (fst (element builder "a" initialHeap)) <= length h' /\
     forall r, res = Return r -> r < length h') /\
  (forall a token b h' res,
     combine 1 a token b (fst (element builder "a" initialHeap))
     = (h', res) ->
     wf h' = true /\
     length (fst (element builder "a" initialHeap)) <= length h' /\
     forall r, res = Return r -> r < length h').
Proof.
  apply (X9_prototypes_stay_older (fst (element builder "a" initialHeap)) 1).
  - reflexivity.
  - vm_compute. lia.
Defined.

(** ** X10: a chain is one object *)

Lemma chain_in_place_from (ops pre : list (kind * string)) (h h' : heap)
    (r r' : ref) :
  built pre h r ->
  fragments pre <> "" ->
  chain ops r h = (h', Return r') ->
  r' = r /\ length h' = length h.
Proof.
  revert pre h r. induction ops as [|[k v] ops IH]; intros pre h r Hb Hne Hc.
  - cbn in Hc. by injection Hc as <- <-.
  - cbn in Hc. destruct (partOp k r v h) as [h1 [r1|e]] eqn:Hop;
      [|discriminate].
    pose proof (built_step _ _ _ _ _ _ _ Hb Hop) as Hb1.
    destruct Hb as (u & Hs & _).
    rewrite (partOp_hasState _ _ _ _ _ _ Hs) in Hop.
    destruct (dupGuard k u); [discriminate|].
    destruct (orderGuard k u); [discriminate|].
    destruct (truthy (Some (fragments pre))) eqn:Htr.
    + injection Hop as <- <-.
      destruct (IH _ _ _ Hb1) with (2 := Hc) as [-> Hlen].
      { rewrite fragments_snoc. intros E.
        by apply append_empty in E as [E _]. }
      by rewrite Hlen, length_extend.
    + by apply truthy_Some in Htr.
Qed.

(** X10: a chain started on a builder without state with a part whose
    fragment is not empty (any part but [element('')]) allocates one object,
    and every further call of the chain returns that same object: a variable
    that holds the result of the first call stringifies to the whole
    chain. *)
Theorem X10_chain_is_one_object (h h' : heap) (t r : ref) (k : kind)
    (v : string) (ops : list (kind * string)) :
  template h t ->
  fragment k v <> "" ->
  chain ((k, v) :: ops) t h = (h', Return r) ->
  r = length h /\
  length h' = S (length h) /\
  render (length h) h' = Return (Some (fragments ((k, v) :: ops))).
Proof.
  intros Ht Hne Hc.
  assert ((k, v) :: ops <> []) as Hcons by discriminate.
  pose proof (chain_built _ _ _ _ _ Ht Hcons Hc) as Hb.
  cbn in Hc. rewrite (partOp_template _ _ _ _ Ht) in Hc.
  unfold newInstance in Hc.
  assert (fragments [(k, v)] <> "") as Hfr.
  { cbn [fragments]. by rewrite append_empty_r. }
  destruct (chain_in_place_from ops [(k, v)] _ _ _ _
              (built_first k v t h) Hfr Hc) as [-> Hlen].
  split; [done|]. split.
  - rewrite Hlen, length_app. cbn. lia.
  - by apply built_render.
Qed.

(** [const a = element('div'); a.id('main').class('x')]: [a] is the chain. *)
Lemma X10_first_result_is_the_chain :
  1 = length initialHeap /\
  length (fst (chain [(Element, "div"); (Id, "main"); (Class, "x")]
                 builder initialHeap)) = S (length initialHeap) /\
  render (length initialHeap)
    (fst (chain [(Element, "div"); (Id, "main"); (Class, "x")]
            builder initialHeap))
  = Return (Some "div#main.x").
Proof.
  apply (X10_chain_is_one_object initialHeap _ builder 1 Element "div"
           [(Id, "main"); (Class, "x")]).
  - split; reflexivity.
  - discriminate.
  - reflexivity.
Defined.

(** ** X11: how a chain fails *)

Lemma chain_throw_from (ops pre : list (kind * string)) (h h' : heap)
    (r : ref) (e : exn) :
  built pre h r ->
  chain ops r h = (h', Throw e) ->
  (e = Error duplicateMessage \/ e = Error orderMessage) /\
  exists ops1 k v ops2 r1,
    ops = ops1 ++ (k, v) :: ops2 /\
    chain ops1 r h = (h', Return r1) /\
    partOp k r1 v h' = (h', Throw e).
Proof.
  revert pre h r. induction ops as [|[k v] ops IH]; intros pre h r Hb Hc;
    [discriminate|].
  cbn in Hc. destruct (partOp k r v h) as [h1 [r1|e1]] eqn:Hop.
  - pose proof (built_step _ _ _ _ _ _ _ Hb Hop) as Hb1.
    destruct (IH _ _ _ Hb1 Hc)
      as (He & ops1 & k1 & v1 & ops2 & r2 & -> & Hc1 & Hop1).
    split; [done|].
    exists ((k, v) :: ops1), k1, v1, ops2, r2.
    split; [done|]. split; [|done]. cbn. by rewrite Hop.
  - injection Hc as <- <-. pose proof Hop as Hop'.
    destruct Hb as (u & Hs & _).
    rewrite (partOp_hasState _ _ _ _ _ _ Hs) in Hop. unfold newInstance in Hop.
    assert (h1 = h /\ (e1 = Error duplicateMessage \/ e1 = Error orderMessage))
      as [-> He].
    { repeat case_match; simplify_eq; auto. }
    split; [done|]. exists [], k, v, ops, r. by repeat split.
Qed.

(** X11: a chain started on a builder without state never throws a
    TypeError: when it fails it throws the error of the cardinality check or
    that of the ordering check, at the first part that a guard rejects, and
    the heap is then exactly the heap that the parts before it have
    built. *)
Theorem X11_chain_fails_at_first_rejected_part (h h' : heap) (t : ref)
    (ops : list (kind * string)) (e : exn) :
  template h t ->
  chain ops t h = (h', Throw e) ->
  (e = Error duplicateMessage \/ e = Error orderMessage) /\
  exists ops1 k v ops2 r1,
    ops = ops1 ++ (k, v) :: ops2 /\
    ops1 <> [] /\
    chain ops1 t h = (h', Return r1) /\
    partOp k r1 v h' = (h', Throw e).
Proof.
  intros Ht Hc. destruct ops as [|[k v] ops]; [discriminate|].
  cbn in Hc. rewrite (partOp_template _ _ _ _ Ht) in Hc.
  unfold newInstance in Hc.
  destruct (chain_throw_from _ _ _ _ _ _ (built_first k v t h) Hc)
    as (He & ops1 & k1 & v1 & ops2 & r1 & -> & Hc1 & Hop1).
  split; [done|].
  exists ((k, v) :: ops1), k1, v1, ops2, r1.
  split; [done|]. split; [done|]. split; [|done].
  cbn. by rewrite (partOp_template _ _ _ _ Ht).
Qed.

(** [element('a').pseudoClass('hover').class('x').attr('y')] fails at
    [class]. *)
Lemma X11_fails_at_class :
  exists h' e,
    chain [(Element, "a"); (PseudoClass, "hover"); (Class, "x");
           (Attribute, "y")] builder initialHeap = (h', Throw e) /\
    e = Error orderMessage /\
    chain [(Element, "a"); (PseudoClass, "hover")] builder initialHeap
    = (h', Return 1) /\
    render 1 h' = Return (Some "a:hover").
Proof.
  exists (fst (chain [(Element, "a"); (PseudoClass, "hover"); (Class, "x");
                      (Attribute, "y")] builder initialHeap)),
    (Error orderMessage).
  destruct (X11_chain_fails_at_first_rejected_part initialHeap
              (fst (chain [(Element, "a"); (PseudoClass, "hover");
                           (Class, "x"); (Attribute, "y")]
                      builder initialHeap))
              builder
              [(Element, "a"); (PseudoClass, "hover"); (Class, "x");
               (Attribute, "y")] (Error orderMessage)) as [_ _].
  - split; reflexivity.
  - reflexivity.
  - repeat split; reflexivity.
Defined.
